(** * RSBagReader: the bounded frame buffer between a RealSense bag file
      and its reader

    A model of [cpp/open3d/t/io/sensor/realsense/RSBagReader.cpp].

    The reader owns a ring of [frame_buffer_.size()] frame slots and two
    64-bit counters.  [fill_frame_buffer] runs on [frame_reader_thread_]
    and advances [head_fid_]; [NextFrame] runs on the caller's thread and
    advances [tail_fid_].  The two threads are modelled as an interleaving
    of atomic steps over sequentially consistent variables.  A step reads
    or writes the variables of the other thread at one instant: the store
    into a slot (lines 193-212) is one step, the increment of [head_fid_]
    (line 213) another; in [NextFrame] the increment of [tail_fid_] is one
    step and the copy of the slot it indexed (both line 261) the next, so
    that the thread can move in between.  A copy that overlaps a store
    into the same slot is seen as happening before or after it.  A
    schedule names the thread that moves at each step.

    The librealsense pipeline is an external collaborator: what each of
    its calls answers (a frameset, a timeout, an exception) is an input of
    the step that makes the call.  Waiting on [need_frames_] is modelled by
    its predicate alone: the thread may leave the wait whenever the
    predicate holds.  This has every step the code can take, and more: the
    mutex of line 163 is local to the thread, so a notification sent
    between the test of the predicate and the blocking is lost and the
    code may stay in the wait.  What is proved here about the wait is
    therefore what the thread does not do; that it leaves the wait is not
    claimed.  Times and timeouts are not modelled; the start time of
    line 170 is converted as the code converts it. *)

From stdpp Require Import list strings sorting.
From Stdlib Require Import ZArith Lia.

Open Scope Z_scope.

(** ** Machine integers *)

Definition UINT64_MAX : Z := 2 ^ 64 - 1.

(** Arithmetic on [uint64_t] wraps around. *)
Definition u64 (x : Z) : Z := x mod 2 ^ 64.

(** [std::chrono::microseconds(x)] for a [uint64_t x] (line 170): [x]
    converted to the signed 64-bit count of the duration. *)
Definition to_microseconds (x : Z) : Z := (x + 2 ^ 63) mod 2 ^ 64 - 2 ^ 63.

(** ** Frames *)

(** The payload of a tensor is opaque to the reader. *)
Definition Tensor : Type := list Z.

(** [t::geometry::RGBDImage]. *)
Record RGBDImage : Type := mkRGBD { color_ : Tensor; depth_ : Tensor }.

(** [t::geometry::RGBDImage()], the value [NextFrame] returns at line 259. *)
Definition RGBDImage_default : RGBDImage := mkRGBD [] [].

(** An [rs2::frameset] as [try_wait_for_frames] delivers it: the frame
    number of its colour frame, the two images once aligned, and the
    playback position [rs_device.get_position()] (in ns) that goes with
    it. *)
Record frameset : Type := mkFrameset {
  frame_number : Z;
  color_data : Tensor;
  depth_data : Tensor;
  position_ns : Z
}.

(** Lines 197-209: the slot contents made from a frameset. *)
Definition to_rgbd (fs : frameset) : RGBDImage :=
  mkRGBD (color_data fs) (depth_data fs).

(** The default-constructed [rs2::frameset frames] of line 167. *)
Definition frameset_default : frameset := mkFrameset 0 [] [] 0.

(** What a call into librealsense answers. *)
Inductive rs_reply : Type :=
| RsOk                      (* the call returned *)
| RsFrames (fs : frameset)  (* try_wait_for_frames returned true *)
| RsTimeout                 (* try_wait_for_frames returned false *)
| RsError.                  (* the call threw (rs2::error, std::exception) *)

(** ** Reader state *)

(** Program points of [fill_frame_buffer]. *)
Inductive ppc : Type :=
| P_NotStarted   (* no thread: never launched, or joined *)
| P_Seek         (* line 170 *)
| P_ResetHead    (* line 172 *)
| P_ResetTail    (* line 173 *)
| P_Outer        (* lines 177-178 *)
| P_Inner        (* line 182 *)
| P_Pull         (* lines 184-192 *)
| P_Write        (* lines 193-212 *)
| P_IncHead      (* line 213 *)
| P_SetEof       (* lines 219-220 *)
| P_CheckOpened  (* line 222 *)
| P_Pause        (* line 224 *)
| P_Wait         (* lines 228-232 *)
| P_Returned     (* the thread function returned; the thread is joinable *)
| P_Terminated.  (* an exception left the thread function *)

(** [frame_reader_thread_]: program point and locals of
    [fill_frame_buffer]. *)
Record producer : Type := mkProducer {
  pc : ppc;
  start_time_us : Z;
  next_dev_color_fid : Z;
  dev_color_fid : Z;
  frames : frameset
}.

(** What [Close]'s join continues with. *)
Inductive after_join : Type :=
| AJ_Close
| AJ_Open (filename : string) (start : Z) (from_seek : bool).

(** Program points of the caller's thread. *)
Inductive cpc : Type :=
| C_Idle
| C_NextWait     (* NextFrame, lines 251-256 *)
| C_NextReturn   (* NextFrame, lines 257-261, up to tail_fid_++ *)
| C_NextCopy (i : Z)
                 (* NextFrame, line 261: frame_buffer_[i] is copied *)
| C_Join (k : after_join)  (* Close, line 86 *)
| C_Start (filename : string) (start : Z) (from_seek : bool).
                 (* Open, lines 60-79 *)

(** The part of [metadata_] the reader consults. *)
Record RGBDVideoMetadata : Type := mkMetadata {
  stream_length_usec_ : Z
}.

Record state : Type := mkState {
  frame_buffer_ : list RGBDImage;
  frame_position_us_ : list Z;
  head_fid_ : Z;
  tail_fid_ : Z;
  is_eof_ : bool;
  is_opened_ : bool;
  filename_ : string;
  metadata_ : RGBDVideoMetadata;
  frame_reader_thread_ : producer;
  caller : cpc
}.

Definition size (s : state) : Z := Z.of_nat (length (frame_buffer_ s)).

Definition set_head (v : Z) (s : state) : state :=
  mkState (frame_buffer_ s) (frame_position_us_ s) v (tail_fid_ s)
    (is_eof_ s) (is_opened_ s) (filename_ s) (metadata_ s)
    (frame_reader_thread_ s) (caller s).

Definition set_tail (v : Z) (s : state) : state :=
  mkState (frame_buffer_ s) (frame_position_us_ s) (head_fid_ s) v
    (is_eof_ s) (is_opened_ s) (filename_ s) (metadata_ s)
    (frame_reader_thread_ s) (caller s).

Definition set_eof (b : bool) (s : state) : state :=
  mkState (frame_buffer_ s) (frame_position_us_ s) (head_fid_ s) (tail_fid_ s)
    b (is_opened_ s) (filename_ s) (metadata_ s)
    (frame_reader_thread_ s) (caller s).

Definition set_slot (i : Z) (img : RGBDImage) (pos : Z) (s : state) : state :=
  mkState (<[Z.to_nat i := img]> (frame_buffer_ s))
    (<[Z.to_nat i := pos]> (frame_position_us_ s))
    (head_fid_ s) (tail_fid_ s)
    (is_eof_ s) (is_opened_ s) (filename_ s) (metadata_ s)
    (frame_reader_thread_ s) (caller s).

Definition set_thread (p : producer) (s : state) : state :=
  mkState (frame_buffer_ s) (frame_position_us_ s) (head_fid_ s) (tail_fid_ s)
    (is_eof_ s) (is_opened_ s) (filename_ s) (metadata_ s)
    p (caller s).

Definition set_caller (c : cpc) (s : state) : state :=
  mkState (frame_buffer_ s) (frame_position_us_ s) (head_fid_ s) (tail_fid_ s)
    (is_eof_ s) (is_opened_ s) (filename_ s) (metadata_ s)
    (frame_reader_thread_ s) c.

Definition goto (l : ppc) (s : state) : state :=
  let p := frame_reader_thread_ s in
  set_thread (mkProducer l (start_time_us p) (next_dev_color_fid p)
                (dev_color_fid p) (frames p)) s.

(** [frame_buffer_[i]] and [frame_position_us_[i]]. *)
Definition slot (s : state) (i : Z) : RGBDImage :=
  default RGBDImage_default (frame_buffer_ s !! Z.to_nat i).

Definition slot_position (s : state) (i : Z) : Z :=
  default 0 (frame_position_us_ s !! Z.to_nat i).

(** ** Observable events *)

(** What an API call hands back to the caller.  [RetNoMoreFrames] is the
    default-constructed image of line 259, [RetFrame] the slot copied at
    line 261. *)
Inductive retval : Type :=
| RetVoid
| RetBool (b : bool)
| RetU64 (z : Z)
| RetFrame (img : RGBDImage)
| RetNoMoreFrames.

Definition image_of (r : retval) : RGBDImage :=
  match r with
  | RetFrame img => img
  | _ => RGBDImage_default
  end.

Inductive event : Type :=
| EvSeek (t : Z)            (* rs_device.seek(t), t in microseconds *)
| EvResume                  (* rs_device.resume() *)
| EvPause                   (* rs_device.pause() *)
| EvAccept (fs : frameset)  (* a frameset was stored and head_fid_ advanced *)
| EvEof                     (* is_eof_ = true *)
| EvNotify                  (* need_frames_.notify_one() *)
| EvLogInfo
| EvLogWarning
| EvLogError
| EvReturn (r : retval)     (* an API call returned r *)
| EvRaise                   (* an API call left with an exception *)
| EvTerminate.              (* std::terminate: an exception left the thread
                               function or a destructor *)

(** ** API calls and scheduling *)

Inductive call : Type :=
| CallOpen (filename : string) (start : Z)
| CallClose
| CallIsOpened
| CallIsEOF
| CallNextFrame
| CallSeekTimestamp (timestamp : Z)
| CallGetTimestamp.

(** One step of the caller's thread: it starts an API call, goes on with
    the call it is in, or goes on with [Open] given what [pipe_->start]
    answered: [None], it threw [rs2::error]; [Some md], it returned, and so
    did the [GetMetadataJson] of line 75, with a value that converts to
    [md].  An [Open] whose [GetMetadataJson] throws is no step of a
    schedule; what it leaves behind is [Open_started], further down. *)
Inductive cinput : Type :=
| Call (c : call)
| Tick
| PipeStart (md : option RGBDVideoMetadata).

(** A schedule names, step by step, the thread that moves and what the
    outside world answers it. *)
Inductive action : Type :=
| Prod (r : rs_reply)
| Caller (c : cinput).

(** [RSBagReader::IsOpened]. *)
Definition IsOpened (s : state) : bool := is_opened_ s.

(** [RSBagReader::IsEOF], line 241. *)
Definition IsEOF (s : state) : bool :=
  is_eof_ s && (tail_fid_ s =? head_fid_ s).

(** [RSBagReader::GetTimestamp], lines 283-291. *)
Definition GetTimestamp (s : state) : Z :=
  if negb (IsOpened s) then UINT64_MAX
  else if tail_fid_ s =? 0 then 0
  else slot_position s ((tail_fid_ s - 1) mod size s).

(** [RSBagReader::RSBagReader(buffer_size)], lines 42-46.

    Modelled from the spec: the in-class initialisers of [head_fid_],
    [tail_fid_], [is_eof_] and [is_opened_] are in RSBagReader.h; a reader
    is constructed closed, not at end of stream, with both counters at
    zero. *)
Definition RSBagReader (buffer_size : nat) : state :=
  mkState (replicate buffer_size RGBDImage_default) (replicate buffer_size 0)
    0 0 false false "" (mkMetadata 0)
    (mkProducer P_NotStarted 0 0 0 frameset_default) C_Idle.

Section Reader.

(** [BUFFER_REFILL_FACTOR] is a constant of RSBagReader.h. *)
Variable BUFFER_REFILL_FACTOR : Z.

(** Modelled from the spec: [utility::LogError] is defined in
    open3d/utility, not in this file.  The spec has an error either logged
    or reported to the caller; [LogError_throws] tells whether the call
    leaves with an exception ([true]) or returns after logging
    ([false]). *)
Variable LogError_throws : bool.

(** *** [fill_frame_buffer] *)

(** Lines 234-239: both handlers of the function-try-block call
    [LogError] and nothing else. *)
Definition on_error (s : state) : state * list event :=
  if LogError_throws then (goto P_Terminated s, [EvLogError; EvTerminate])
  else (goto P_Returned s, [EvLogError]).

(** Line 182: room in the ring. *)
Definition has_room (s : state) : bool :=
  head_fid_ s <? u64 (tail_fid_ s + size s).

(** Lines 229-231 and line 248: the buffer is below the refill mark. *)
Definition below_refill (s : state) : bool :=
  head_fid_ s <? u64 (tail_fid_ s + size s / BUFFER_REFILL_FACTOR).

(** Lines 228-232: the predicate of [need_frames_.wait]. *)
Definition need_frames_pred (s : state) : bool :=
  negb (is_opened_ s) || below_refill s.

(** One step of [fill_frame_buffer], lines 162-233, given what the
    pipeline answers.  At [P_Wait] the thread goes on when the predicate
    of the wait holds.  The code needs a wake-up as well, and a
    notification sent before the thread blocks is lost (the mutex of line
    163 is the thread's own): the code may stay at line 228 where this
    step goes on. *)
Definition fill_frame_buffer_step (r : rs_reply) (s : state)
  : option (state * list event) :=
  let p := frame_reader_thread_ s in
  match pc p with
  | P_NotStarted | P_Returned | P_Terminated => None
  | P_Seek =>
      match r with
      | RsError => Some (on_error s)
      | _ =>
          Some (goto P_ResetHead s,
                [EvSeek (to_microseconds (start_time_us p))])
      end
  | P_ResetHead => Some (goto P_ResetTail (set_head 0 s), [])
  | P_ResetTail => Some (goto P_Outer (set_tail 0 s), [])
  | P_Outer =>
      if is_opened_ s then
        match r with
        | RsError => Some (on_error s)
        | _ => Some (goto P_Inner s, [EvResume])
        end
      else Some (goto P_Returned s, [])
  | P_Inner =>
      if negb (is_eof_ s) && has_room s then Some (goto P_Pull s, [])
      else Some (goto P_Pause s, [])
  | P_Pull =>
      if next_dev_color_fid p <=? dev_color_fid p then
        match r with
        | RsFrames fs =>
            Some (set_thread (mkProducer P_Pull (start_time_us p)
                                (frame_number fs) (dev_color_fid p) fs) s, [])
        | RsTimeout => Some (goto P_SetEof s, [])
        | RsError => Some (on_error s)
        | RsOk => None
        end
      else Some (goto P_Write s, [])
  | P_Write =>
      match r with
      | RsError => Some (on_error s)
      | _ =>
          Some (set_thread (mkProducer P_IncHead (start_time_us p)
                              (next_dev_color_fid p) (next_dev_color_fid p)
                              (frames p))
                  (set_slot (head_fid_ s mod size s) (to_rgbd (frames p))
                     (position_ns (frames p) / 1000) s), [])
      end
  | P_IncHead =>
      Some (goto P_CheckOpened (set_head (u64 (head_fid_ s + 1)) s),
            [EvAccept (frames p)])
  | P_SetEof => Some (goto P_Returned (set_eof true s), [EvEof])
  | P_CheckOpened =>
      if negb (is_opened_ s) then Some (goto P_Pause s, [])
      else Some (goto P_Inner s, [])
  | P_Pause =>
      match r with
      | RsError => Some (on_error s)
      | _ => Some (goto P_Wait s, [EvPause])
      end
  | P_Wait =>
      if need_frames_pred s then Some (goto P_Outer s, []) else None
  end.

(** *** The caller's thread *)

(** [Close], lines 83-85, up to the join. *)
Definition close_begin (k : after_join) (s : state) : state :=
  mkState (frame_buffer_ s) (frame_position_us_ s) (head_fid_ s) (tail_fid_ s)
    (is_eof_ s) false "" (metadata_ s) (frame_reader_thread_ s) (C_Join k).

(** [Open], lines 72-79, once [pipe_->start] has succeeded.  The new
    thread starts with the locals of [fill_frame_buffer] as lines 167, 171
    and 174 initialise them. *)
Definition launch (filename : string) (start : Z) (md : RGBDVideoMetadata)
    (s : state) : state :=
  mkState (frame_buffer_ s) (frame_position_us_ s) (head_fid_ s) (tail_fid_ s)
    false true filename md
    (mkProducer P_Seek start 0 0 frameset_default) C_Idle.

Definition begin_call (k : call) (s : state) : option (state * list event) :=
  match k with
  | CallIsOpened => Some (s, [EvReturn (RetBool (IsOpened s))])
  | CallIsEOF => Some (s, [EvReturn (RetBool (IsEOF s))])
  | CallGetTimestamp =>
      if negb (IsOpened s)
      then Some (s, [EvLogWarning; EvReturn (RetU64 (GetTimestamp s))])
      else Some (s, [EvReturn (RetU64 (GetTimestamp s))])
  | CallNextFrame =>
      (* lines 244-249 *)
      if negb (IsOpened s) && LogError_throws
      then Some (s, [EvLogError; EvRaise])
      else
        Some (set_caller C_NextWait s,
              (if negb (IsOpened s) then [EvLogError] else []) ++
              (if negb (is_eof_ s) && below_refill s then [EvNotify] else []))
  | CallSeekTimestamp timestamp =>
      if negb (IsOpened s)
      then Some (s, [EvLogWarning; EvReturn (RetBool false)])
      else if stream_length_usec_ (metadata_ s) <=? timestamp
      then Some (s, [EvLogWarning; EvReturn (RetBool false)])
      else
        (* line 279: Open(rs_device.file_name(), timestamp) on an opened
           reader starts with Close() *)
        Some (close_begin (AJ_Open (filename_ s) timestamp true) s, [EvNotify])
  | CallOpen filename start =>
      if IsOpened s
      then Some (close_begin (AJ_Open filename start false) s, [EvNotify])
      else Some (set_caller (C_Start filename start false) s, [])
  | CallClose => Some (close_begin AJ_Close s, [EvNotify])
  end.

Definition caller_step (c : cinput) (s : state)
  : option (state * list event) :=
  match caller s, c with
  | C_Idle, Call k => begin_call k s
  | C_NextWait, Tick =>
      (* lines 251-256: one evaluation of the loop condition *)
      if negb (is_eof_ s) && (tail_fid_ s =? head_fid_ s)
      then Some (s, [])
      else Some (set_caller C_NextReturn s, [])
  | C_NextReturn, Tick =>
      (* lines 257-261: tail_fid_++ hands back the old value and makes the
         new one visible to the thread before the slot is copied *)
      if is_eof_ s && (tail_fid_ s =? head_fid_ s)
      then Some (set_caller C_Idle s, [EvLogInfo; EvReturn RetNoMoreFrames])
      else
        Some (set_caller (C_NextCopy (tail_fid_ s mod size s))
                (set_tail (u64 (tail_fid_ s + 1)) s), [])
  | C_NextCopy i, Tick =>
      (* line 261: the copy of the slot, as the ring is at that moment *)
      Some (set_caller C_Idle s, [EvReturn (RetFrame (slot s i))])
  | C_Join k, Tick =>
      (* lines 86-87: join returns once the thread function has returned;
         joining a thread that is not joinable throws std::system_error *)
      match pc (frame_reader_thread_ s) with
      | P_Returned =>
          let s1 := goto P_NotStarted s in
          match k with
          | AJ_Close => Some (set_caller C_Idle s1, [EvReturn RetVoid])
          | AJ_Open filename start from_seek =>
              Some (set_caller (C_Start filename start from_seek) s1, [])
          end
      | P_NotStarted => Some (set_caller C_Idle s, [EvRaise])
      | _ => None
      end
  | C_Start filename start from_seek, PipeStart md =>
      match md with
      | Some m =>
          Some (launch filename start m s, [EvLogInfo; EvReturn (RetBool true)])
      | None =>
          (* lines 68-70: Open returns false; SeekTimestamp, line 280,
             returns true whatever Open returned *)
          Some (set_caller C_Idle s,
                [EvLogWarning; EvReturn (RetBool from_seek)])
      end
  | _, _ => None
  end.

(** *** Interleaving *)

(** Once an exception has left the thread function the process is gone:
    nothing moves any more. *)
Definition step (a : action) (s : state) : option (state * list event) :=
  match pc (frame_reader_thread_ s) with
  | P_Terminated => None
  | _ =>
      match a with
      | Prod r => fill_frame_buffer_step r s
      | Caller c => caller_step c s
      end
  end.

Fixpoint run (acts : list action) (s : state) : option (state * list event) :=
  match acts with
  | [] => Some (s, [])
  | a :: rest =>
      match step a s with
      | None => None
      | Some (s1, e1) =>
          match run rest s1 with
          | None => None
          | Some (s2, e2) => Some (s2, e1 ++ e2)
          end
      end
  end.

End Reader.

Arguments on_error LogError_throws s : assert.
Arguments begin_call BUFFER_REFILL_FACTOR LogError_throws k s : assert.
Arguments caller_step BUFFER_REFILL_FACTOR LogError_throws c s : assert.
Arguments fill_frame_buffer_step BUFFER_REFILL_FACTOR LogError_throws r s
  : assert.
Arguments step BUFFER_REFILL_FACTOR LogError_throws a s : assert.
Arguments run BUFFER_REFILL_FACTOR LogError_throws acts s : assert.

(** ** Properties of states and schedules *)

(** Who owns the thread object: while the reader is closed there is no
    thread unless [Close] is about to join it, and [Open] and [Close] are
    past line 84 only on a closed reader. *)
Definition lifecycle (s : state) : Prop :=
  (is_opened_ s = false ->
   pc (frame_reader_thread_ s) = P_NotStarted \/
   exists k, caller s = C_Join k) /\
  (is_opened_ s = true ->
   caller s = C_Idle \/ caller s = C_NextWait \/ caller s = C_NextReturn \/
   exists i, caller s = C_NextCopy i).

(** Every state a schedule takes a step from satisfies [P]. *)
Fixpoint always_before (BRF : Z) (LT : bool) (P : state -> Prop)
    (acts : list action) (s : state) : Prop :=
  match acts with
  | [] => True
  | a :: rest =>
      P s /\
      match step BRF LT a s with
      | Some (s1, _) => always_before BRF LT P rest s1
      | None => True
      end
  end.

(** The reader is opened and holds more than [size / BUFFER_REFILL_FACTOR]
    unread frames. *)
Definition above_refill (BRF : Z) (s : state) : Prop :=
  is_opened_ s = true /\ size s / BRF < head_fid_ s - tail_fid_ s.


(** The window the ring relies on. *)
Definition window (s : state) : Prop :=
  0 <= head_fid_ s - tail_fid_ s <= size s.

(** The framesets a schedule shows accepted, and the images it shows
    returned by [NextFrame], in order. *)
Definition accepted (evs : list event) : list frameset :=
  omap (fun e => match e with EvAccept fs => Some fs | _ => None end) evs.

Definition returned (evs : list event) : list RGBDImage :=
  omap (fun e => match e with
                 | EvReturn (RetFrame img) => Some img
                 | _ => None
                 end) evs.




(** Lines 170-173: the thread has not finished its start-up. *)
Definition starting (l : ppc) : bool :=
  match l with
  | P_Seek | P_ResetHead | P_ResetTail => true
  | _ => false
  end.

(** Lines 184-213: the thread has found room and is about to store. *)
Definition storing (l : ppc) : bool :=
  match l with
  | P_Pull | P_Write | P_IncHead => true
  | _ => false
  end.

Record window_inv (s : state) : Prop := mkWindowInv {
  wi_tail : 0 <= tail_fid_ s;
  wi_le : tail_fid_ s <= head_fid_ s;
  wi_cap : head_fid_ s <= tail_fid_ s + size s;
  wi_head : head_fid_ s < 2 ^ 64;
  wi_starting :
    starting (pc (frame_reader_thread_ s)) = true ->
    head_fid_ s = 0 /\ tail_fid_ s = 0 /\ is_eof_ s = false;
  wi_storing :
    storing (pc (frame_reader_thread_ s)) = true ->
    head_fid_ s < tail_fid_ s + size s /\ head_fid_ s + 1 < 2 ^ 64;
  wi_return :
    caller s = C_NextReturn -> is_eof_ s = true \/ tail_fid_ s < head_fid_ s
}.

Definition is_launch (a : action) : bool :=
  match a with
  | Caller (PipeStart (Some _)) => true
  | _ => false
  end.

(** A thread is launched (line 77) only with both counters at zero. *)
Definition clean_launch (a : action) (s : state) : Prop :=
  match a, caller s with
  | Caller (PipeStart (Some _)), C_Start _ _ _ =>
      head_fid_ s = 0 /\ tail_fid_ s = 0
  | _, _ => True
  end.

(** Every launch of a schedule finds both counters at zero. *)
Fixpoint clean_launches (BRF : Z) (LT : bool) (acts : list action)
    (s : state) : Prop :=
  match acts with
  | [] => True
  | a :: rest =>
      clean_launch a s /\
      match step BRF LT a s with
      | Some (s1, _) => clean_launches BRF LT rest s1
      | None => True
      end
  end.

(** The oldest frame counter whose slot has not been written again: the
    ring holds [size] slots, and between lines 210 and 213 the slot of
    [head_fid_] is already written. *)
Definition oldest_kept (s : state) : Z :=
  head_fid_ s - size s +
  match pc (frame_reader_thread_ s) with
  | P_IncHead => 1
  | _ => 0
  end.


(** [NextFrame] has advanced [tail_fid_] and not yet copied the slot. *)
Definition copying (c : cpc) : bool :=
  match c with
  | C_NextCopy _ => true
  | _ => false
  end.

(** What the ring holds when [acc] are the framesets accepted so far: the
    slots of the last [size] of them. *)
Record ring_inv (s : state) (acc : list frameset) : Prop := mkRingInv {
  ri_window : window_inv s;
  ri_head : head_fid_ s = Z.of_nat (length acc);
  ri_ring :
    forall i : Z, 0 <= i -> oldest_kept s <= i < head_fid_ s ->
      frame_buffer_ s !! Z.to_nat (i mod size s)
        = to_rgbd <$> (acc !! Z.to_nat i);
  ri_sorted : StronglySorted Z.lt (frame_number <$> acc);
  ri_dev :
    Forall (fun fs => frame_number fs <= dev_color_fid (frame_reader_thread_ s))
      acc;
  ri_frames :
    frame_number (frames (frame_reader_thread_ s))
      = next_dev_color_fid (frame_reader_thread_ s);
  ri_write :
    pc (frame_reader_thread_ s) = P_Write ->
    dev_color_fid (frame_reader_thread_ s)
      < next_dev_color_fid (frame_reader_thread_ s);
  ri_inc :
    pc (frame_reader_thread_ s) = P_IncHead ->
    frame_number (frames (frame_reader_thread_ s))
      = dev_color_fid (frame_reader_thread_ s) /\
    Forall (fun fs =>
              frame_number fs < dev_color_fid (frame_reader_thread_ s)) acc /\
    frame_buffer_ s !! Z.to_nat (head_fid_ s mod size s)
      = Some (to_rgbd (frames (frame_reader_thread_ s)))
}.


(** ** Concrete readers used by the examples *)

Module Sample.

(** A frameset numbered [n], recorded 33 ms after its predecessor. *)
Definition frame (n : Z) : frameset :=
  mkFrameset n [n] [n + 100] (n * 33000000).

(** A bag of one second. *)
Definition bag : RGBDVideoMetadata := mkMetadata 1000000.

(** [Open(name, t)] with a pipeline that starts. *)
Definition open (t : Z) : list action :=
  [Caller (Call (CallOpen "a.bag" t)); Caller (PipeStart (Some bag))].

(** The thread up to its first evaluation of line 182: seek, the two
    resets, resume. *)
Definition boot : list action := [Prod RsOk; Prod RsOk; Prod RsOk; Prod RsOk].

(** One turn of the loop of line 182 in which the pipeline delivers
    frameset [n]. *)
Definition accept (n : Z) : list action :=
  [Prod RsOk; Prod (RsFrames (frame n)); Prod RsOk; Prod RsOk; Prod RsOk;
   Prod RsOk].

(** One call of [NextFrame] that does not have to wait. *)
Definition next : list action :=
  [Caller (Call CallNextFrame); Caller Tick; Caller Tick; Caller Tick].

(** The thread finds the ring full and goes to wait. *)
Definition fill_up : list action := [Prod RsOk; Prod RsOk].

(** A reader of four slots is opened, framesets 1-4 are buffered and the
    thread waits. *)
Definition full4 : list action :=
  open 0 ++ boot ++ accept 1 ++ accept 2 ++ accept 3 ++ accept 4 ++ fill_up.

(** [SeekTimestamp(500000)] on a reader whose thread waits: the call
    closes the reader, the thread wakes up, finds the reader closed and
    returns, the call joins it and restarts the pipeline, which answers
    [md]. *)
Definition seek (md : option RGBDVideoMetadata) : list action :=
  [Caller (Call (CallSeekTimestamp 500000)); Prod RsOk; Prod RsOk;
   Caller Tick; Caller (PipeStart md)].

(** A [NextFrame] that passes line 251, then the first three steps of a
    new thread (lines 170-173), then lines 257-261 of the call. *)
Definition next_across_resets : list action :=
  [Caller (Call CallNextFrame); Caller Tick;
   Prod RsOk; Prod RsOk; Prod RsOk;
   Caller Tick; Caller Tick].

(** The state a schedule leads to with [BUFFER_REFILL_FACTOR = 2] and a
    [LogError] that returns. *)
Definition after (acts : list action) (s : state) : state :=
  match run 2 false acts s with
  | Some (s', _) => s'
  | None => s
  end.

(** A closed reader that has never been opened. *)
Definition closed4 : state := RSBagReader 4.

(** The thread of a freshly opened four-slot reader at its first pull. *)
Definition pulling : state := after (open 0 ++ boot ++ [Prod RsOk]) closed4.

(** Four framesets buffered, the first one read, the thread waiting. *)
Definition paused : state := after (full4 ++ next) closed4.

(** The reader when [SeekTimestamp] has returned after a successful
    restart. *)
Definition restarted : state := after (seek (Some bag)) paused.

End Sample.

(** ** Ownership of the thread, closing and draining *)

(** Who owns [frame_reader_thread_] and who may set [is_eof_].  It holds in
    every state a schedule leads a constructed reader to.  A schedule has
    [GetMetadataJson] return at line 75 (that is [PipeStart (Some md)]);
    [Open_started] below spells out [Open] when it throws. *)
Record ownership (s : state) : Prop := mkOwnership {
  ow_opened :
    is_opened_ s = true ->
    pc (frame_reader_thread_ s) <> P_NotStarted /\
    (caller s = C_Idle \/ caller s = C_NextWait \/ caller s = C_NextReturn \/
     exists i, caller s = C_NextCopy i);
  ow_closed :
    is_opened_ s = false ->
    pc (frame_reader_thread_ s) = P_NotStarted \/
    exists k, caller s = C_Join k;
  ow_eof :
    is_eof_ s = true ->
    pc (frame_reader_thread_ s) = P_Returned \/
    pc (frame_reader_thread_ s) = P_NotStarted
}.

(** The thread function is running. *)
Definition running (l : ppc) : bool :=
  match l with
  | P_NotStarted | P_Returned | P_Terminated => false
  | _ => true
  end.

(** An upper bound on the steps [fill_frame_buffer] can still take once
    [is_opened_] is cleared, pulls of repeated framesets apart. *)
Definition closing_rank (p : producer) : nat :=
  match pc p with
  | P_NotStarted | P_Returned | P_Terminated => 0
  | P_Outer | P_SetEof => 1
  | P_Wait | P_ResetTail => 2
  | P_Pause | P_ResetHead => 3
  | P_CheckOpened | P_Seek => 4
  | P_IncHead => 5
  | P_Write => 6
  | P_Pull => if next_dev_color_fid p <=? dev_color_fid p then 8 else 7
  | P_Inner => 9
  end.

(** End of stream has been reached and the thread is gone. *)
Definition at_eof (s : state) : Prop :=
  is_eof_ s = true /\ tail_fid_ s = head_fid_ s /\
  running (pc (frame_reader_thread_ s)) = false.

(** The pipeline answered with a frameset. *)
Definition delivers (r : rs_reply) : bool :=
  match r with
  | RsFrames _ => true
  | _ => false
  end.

(** What leaves a destructor: it is [noexcept], so an exception raised
    inside it does not reach the caller but ends in [std::terminate]. *)
Definition noexcept (evs : list event) : list event :=
  (fun e => match e with EvRaise => EvTerminate | _ => e end) <$> evs.

(** [RSBagReader::~RSBagReader], lines 48-50: [Close] if the reader is
    opened, where [rs] are the answers the thread gets from the pipeline
    before it is joined. *)
Definition destructor (BRF : Z) (LT : bool) (rs : list rs_reply) (s : state)
  : option (state * list event) :=
  if IsOpened s then
    match run BRF LT (Caller (Call CallClose) :: (Prod <$> rs) ++
                      [Caller Tick]) s with
    | Some (s', evs) => Some (s', noexcept evs)
    | None => None
    end
  else Some (s, []).

(** [k] calls of [NextFrame] in a row, none of which has to wait: each
    enters (lines 244-249), evaluates the condition of line 251 once,
    advances [tail_fid_] (lines 257-261) and copies the slot. *)
Fixpoint reads (k : nat) : list action :=
  match k with
  | O => []
  | S k' =>
      Caller (Call CallNextFrame) :: Caller Tick :: Caller Tick ::
      Caller Tick :: reads k'
  end.

(** A call of [NextFrame] that finds the stream at its end: it enters,
    evaluates the condition of line 251 once and returns the empty image
    (lines 257-259). *)
Definition read_at_end : list action :=
  [Caller (Call CallNextFrame); Caller Tick; Caller Tick].

(** ** Positions *)

(** Line 210: the position stored with a frameset, in microseconds. *)
Definition position_us (fs : frameset) : Z := position_ns fs / 1000.

(** What [frame_position_us_] holds when [acc] are the framesets accepted
    so far. *)
Record position_inv (s : state) (acc : list frameset) : Prop :=
  mkPositionInv {
  pi_length : length (frame_position_us_ s) = length (frame_buffer_ s);
  pi_ring :
    forall i : Z, 0 <= i -> oldest_kept s <= i < head_fid_ s ->
      frame_position_us_ s !! Z.to_nat (i mod size s)
        = position_us <$> (acc !! Z.to_nat i);
  pi_inc :
    pc (frame_reader_thread_ s) = P_IncHead ->
    frame_position_us_ s !! Z.to_nat (head_fid_ s mod size s)
      = Some (position_us (frames (frame_reader_thread_ s)))
}.

(** ** Metadata *)

(** The pixel formats lines 94-111 name; [RS2_FORMAT_other] stands for
    every other enumerator of [rs2_format]. *)
Inductive rs2_format : Type :=
| RS2_FORMAT_Z16
| RS2_FORMAT_YUYV
| RS2_FORMAT_RGB8
| RS2_FORMAT_BGR8
| RS2_FORMAT_RGBA8
| RS2_FORMAT_BGRA8
| RS2_FORMAT_Y8
| RS2_FORMAT_Y16
| RS2_FORMAT_other (n : nat).

Definition rs2_format_eqb (a b : rs2_format) : bool :=
  match a, b with
  | RS2_FORMAT_Z16, RS2_FORMAT_Z16
  | RS2_FORMAT_YUYV, RS2_FORMAT_YUYV
  | RS2_FORMAT_RGB8, RS2_FORMAT_RGB8
  | RS2_FORMAT_BGR8, RS2_FORMAT_BGR8
  | RS2_FORMAT_RGBA8, RS2_FORMAT_RGBA8
  | RS2_FORMAT_BGRA8, RS2_FORMAT_BGRA8
  | RS2_FORMAT_Y8, RS2_FORMAT_Y8
  | RS2_FORMAT_Y16, RS2_FORMAT_Y16 => true
  | RS2_FORMAT_other n, RS2_FORMAT_other n' => Nat.eqb n n'
  | _, _ => false
  end.

(** The two values of [core::Dtype] the reader names. *)
Inductive Dtype : Type := UInt8 | UInt16.

Definition Dtype_eqb (a b : Dtype) : bool :=
  match a, b with
  | UInt8, UInt8 | UInt16, UInt16 => true
  | _, _ => false
  end.

(** Lines 94-111: the three tables, in the order of their initialisers. *)
Definition format_name : list (rs2_format * string) :=
  [(RS2_FORMAT_Z16, "Z16"); (RS2_FORMAT_YUYV, "YUYV");
   (RS2_FORMAT_RGB8, "RGB8"); (RS2_FORMAT_BGR8, "BGR8");
   (RS2_FORMAT_RGBA8, "RGBA8"); (RS2_FORMAT_BGRA8, "BGRA8");
   (RS2_FORMAT_Y8, "Y8"); (RS2_FORMAT_Y16, "Y16")].

Definition format_dtype : list (rs2_format * Dtype) :=
  [(RS2_FORMAT_Z16, UInt16); (RS2_FORMAT_YUYV, UInt8);
   (RS2_FORMAT_RGB8, UInt8); (RS2_FORMAT_BGR8, UInt8);
   (RS2_FORMAT_RGBA8, UInt8); (RS2_FORMAT_BGRA8, UInt8);
   (RS2_FORMAT_Y8, UInt8); (RS2_FORMAT_Y16, UInt16)].

Definition format_channels : list (rs2_format * Z) :=
  [(RS2_FORMAT_Z16, 1); (RS2_FORMAT_YUYV, 2); (RS2_FORMAT_RGB8, 3);
   (RS2_FORMAT_BGR8, 3); (RS2_FORMAT_RGBA8, 4); (RS2_FORMAT_BGRA8, 4);
   (RS2_FORMAT_Y8, 1); (RS2_FORMAT_Y16, 1)].

(** The entry of a table under a key, if it has one. *)
Fixpoint find_format {V : Type} (m : list (rs2_format * V)) (k : rs2_format)
  : option V :=
  match m with
  | [] => None
  | (k', v) :: rest =>
      if rs2_format_eqb k' k then Some v else find_format rest k
  end.

(** A stream of the active profile, and the profile as far as
    [GetMetadataJson] reads it; [duration_usec] is
    [rs_device.get_duration()] once cast to microseconds (lines 154-157).
    The intrinsics of lines 127-132 go to the JSON value unread and are
    left out. *)
Record video_stream_profile : Type := mkStream {
  format : rs2_format;
  fps : Z
}.

Record pipeline_profile : Type := mkProfile {
  rs_depth : video_stream_profile;
  rs_color : video_stream_profile;
  device_name : string;
  serial_number : string;
  duration_usec : Z
}.

(** What librealsense answers to [GetMetadataJson]; a call into it that
    fails throws [rs2::error].  The calls of lines 120-135 (the active
    profile, its device and streams, the intrinsics, the two [get_info])
    come before the first member is assigned, [get_duration] (line 156)
    after the last check. *)
Inductive rs2_answers : Type :=
| Answered (p : pipeline_profile)    (* every call returns *)
| NoDuration (p : pipeline_profile)  (* get_duration throws *)
| NoProfile.                         (* a call of lines 120-135 throws *)

(** A [Json::Value] object: its members, the one assigned last first. *)
Inductive json : Type :=
| JString (s : string)
| JInt (z : Z).

Definition Json_Value : Type := list (string * json).

(** The members of the reader [GetMetadataJson] assigns. *)
Record formats : Type := mkFormats {
  dt_depth_ : Dtype;
  dt_color_ : Dtype;
  channels_color_ : Z
}.

(** The exceptions that leave [GetMetadataJson]. *)
Inductive exception : Type :=
| std_out_of_range     (* unordered_map::at *)
| LogError_exception   (* utility::LogError *)
| rs2_error.           (* a call into librealsense *)

(** A computation over the members of [formats] that logs and either
    returns or throws. *)
Definition meta (A : Type) : Type :=
  formats -> formats * list event * (A + exception).

#[export] Instance meta_ret : MRet meta :=
  fun A a fm => (fm, [], inl a).

#[export] Instance meta_bind : MBind meta :=
  fun A B k x fm =>
    match x fm with
    | (fm1, e1, inl a) =>
        match k a fm1 with
        | (fm2, e2, r) => (fm2, e1 ++ e2, r)
        end
    | (fm1, e1, inr ex) => (fm1, e1, inr ex)
    end.

(** [m.at(k)]. *)
Definition at_ {V : Type} (m : list (rs2_format * V)) (k : rs2_format)
  : meta V :=
  fun fm =>
    match find_format m k with
    | Some v => (fm, [], inl v)
    | None => (fm, [], inr std_out_of_range)
    end.

Definition throw {A : Type} (ex : exception) : meta A :=
  fun fm => (fm, [], inr ex).

(** Lines 120-135: the calls into librealsense before the checks. *)
Definition get_active_profile (a : rs2_answers) : meta pipeline_profile :=
  match a with
  | Answered p | NoDuration p => mret p
  | NoProfile => throw rs2_error
  end.

(** Lines 154-157. *)
Definition get_duration (a : rs2_answers) : meta Z :=
  match a with
  | Answered p => mret (duration_usec p)
  | NoDuration _ | NoProfile => throw rs2_error
  end.

Definition assign (f : formats -> formats) : meta unit :=
  fun fm => (f fm, [], inl tt).

Definition when (b : bool) (x : meta unit) : meta unit :=
  if b then x else mret tt.

Section Metadata.

(** Modelled from the spec: [utility::LogError] is defined in
    open3d/utility, not in this file; as in [fill_frame_buffer],
    [LogError_throws] tells whether it leaves with an exception or returns
    after logging. *)
Variable LogError_throws : bool.

(** Modelled from the spec: [RGBDVideoMetadata::ConvertFromJsonValue] is
    defined in open3d/t/io/sensor, not in this file; the spec leaves the
    extraction of the session metadata to a collaborator, and the function
    is kept abstract. *)
Variable ConvertFromJsonValue : Json_Value -> RGBDVideoMetadata.

Definition LogError : meta unit :=
  fun fm =>
    (fm, [EvLogError],
     if LogError_throws then inr LogError_exception else inl tt).

(** [RSBagReader::GetMetadataJson], lines 90-160, with a pipeline that
    answers [a]. *)
Definition GetMetadataJson (opened : bool) (a : rs2_answers)
  : meta Json_Value :=
  when (negb opened) LogError;;
  p ← get_active_profile a;
  depth_format ← at_ format_name (format (rs_depth p));
  dt ← at_ format_dtype (format (rs_depth p));
  assign (fun fm => mkFormats dt (dt_color_ fm) (channels_color_ fm));;
  when (negb (Dtype_eqb dt UInt16)) LogError;;
  color_format ← at_ format_name (format (rs_color p));
  dt' ← at_ format_dtype (format (rs_color p));
  assign (fun fm => mkFormats (dt_depth_ fm) dt' (channels_color_ fm));;
  when (negb (Dtype_eqb dt' UInt8)) LogError;;
  channels ← at_ format_channels (format (rs_color p));
  assign (fun fm => mkFormats (dt_depth_ fm) (dt_color_ fm) channels);;
  when (negb (fps (rs_color p) =? fps (rs_depth p))) LogError;;
  duration ← get_duration a;
  mret [("stream_length_usec", JInt duration);
        ("fps", JInt (fps (rs_color p)));
        ("color_format", JString color_format);
        ("depth_format", JString depth_format);
        ("serial_number", JString (serial_number p));
        ("device_name", JString (device_name p))].

(** [Open], lines 67-79, once [pipe_->start] has returned: what the call
    leaves behind when librealsense answers [a].  An exception of
    [GetMetadataJson] leaves [Open] at line 75, which is outside the
    [try] block of lines 60-70. *)
Definition Open_started (filename : string) (start : Z)
    (a : rs2_answers) (fm : formats) (s : state)
  : state * formats * list event :=
  let s1 :=
    mkState (frame_buffer_ s) (frame_position_us_ s) (head_fid_ s)
      (tail_fid_ s) false true filename (metadata_ s)
      (frame_reader_thread_ s) C_Idle in
  match GetMetadataJson (IsOpened s1) a fm with
  | (fm', evs, inl value) =>
      (launch filename start (ConvertFromJsonValue value) s, fm',
       EvLogInfo :: evs ++ [EvReturn (RetBool true)])
  | (fm', evs, inr _) => (s1, fm', EvLogInfo :: evs ++ [EvRaise])
  end.

End Metadata.

(** The profile [GetMetadataJson] gets to see, if any. *)
Definition profile_of (a : rs2_answers) : option pipeline_profile :=
  match a with
  | Answered p | NoDuration p => Some p
  | NoProfile => None
  end.

(** [GetMetadataJson], called on an opened reader, throws [ex]. *)
Definition throws (LT : bool) (a : rs2_answers) (fm : formats)
    (ex : exception) : Prop :=
  exists fm' evs, GetMetadataJson LT true a fm = (fm', evs, inr ex).

(** The formats a bag may have for [GetMetadataJson] to pass its checks. *)
Definition depth_supported (f : rs2_format) : bool :=
  match f with
  | RS2_FORMAT_Z16 | RS2_FORMAT_Y16 => true
  | _ => false
  end.

Definition color_supported (f : rs2_format) : bool :=
  match f with
  | RS2_FORMAT_YUYV | RS2_FORMAT_RGB8 | RS2_FORMAT_BGR8 | RS2_FORMAT_RGBA8
  | RS2_FORMAT_BGRA8 | RS2_FORMAT_Y8 => true
  | _ => false
  end.

Definition named (f : rs2_format) : bool :=
  match f with
  | RS2_FORMAT_other _ => false
  | _ => true
  end.

(** ** Further schedules used by the examples *)

Module Scenario.

(** The events a schedule produces with [BUFFER_REFILL_FACTOR = 2] and a
    [LogError] that returns. *)
Definition logged (acts : list action) (s : state) : list event :=
  match run 2 false acts s with
  | Some (_, evs) => evs
  | None => []
  end.

(** What the schedule that leads to [Sample.paused] has shown. *)
Definition history : list event :=
  logged (Sample.full4 ++ Sample.next) Sample.closed4.

(** A four-slot reader whose thread has just been launched. *)
Definition launched : state := launch "a.bag" 0 Sample.bag Sample.closed4.

(** [Close] on [Sample.paused]: the thread wakes up, finds the reader
    closed and returns, the call joins it. *)
Definition close_paused : list action :=
  Caller (Call CallClose) :: (Prod <$> [RsOk; RsOk]) ++ [Caller Tick].


(** A four-slot reader is opened and the first pull of its thread times
    out: end of stream with nothing buffered. *)
Definition empty_bag : list action :=
  Sample.open 0 ++ Sample.boot ++ [Prod RsOk; Prod RsTimeout; Prod RsOk].

(** The reader at the end of [empty_bag]. *)
Definition at_end : state := Sample.after empty_bag Sample.closed4.

(** [Open] on [Sample.paused] with a pipeline that does not start. *)
Definition reopen_paused : list action :=
  Caller (Call (CallOpen "b.bag" 0)) :: (Prod <$> [RsOk; RsOk]) ++
  [Caller Tick; Caller (PipeStart None)].

(** Two framesets are accepted, one is read, then the pull times out. *)
Definition short_bag : list action :=
  Sample.boot ++ Sample.accept 1 ++ Sample.accept 2 ++ Sample.next ++
  [Prod RsOk; Prod RsTimeout; Prod RsOk].

(** After a launch: one frameset is accepted, the next pull times out,
    and a [NextFrame] has advanced [tail_fid_] but not yet copied the
    slot. *)
Definition last_copy_pending : list action :=
  Sample.boot ++ Sample.accept 1 ++ [Prod RsOk; Prod RsTimeout; Prod RsOk] ++
  [Caller (Call CallNextFrame); Caller Tick; Caller Tick].

(** After a launch on a four-slot reader: four framesets are buffered,
    three are read, the thread wakes up and buffers three more. *)
Definition refilled : list action :=
  Sample.boot ++ Sample.accept 1 ++ Sample.accept 2 ++ Sample.accept 3 ++
  Sample.accept 4 ++ Sample.fill_up ++ reads 3 ++ [Prod RsOk; Prod RsOk] ++
  Sample.accept 5 ++ Sample.accept 6 ++ Sample.accept 7.




(** On [Sample.paused] the three frames left are read; [SeekTimestamp]
    restarts the pipeline with both counters at 4; a [NextFrame] waits at
    line 251 until the new thread has reset [head_fid_] (line 172), and
    returns before the thread resets [tail_fid_]. *)
Definition read_after_restart : list action :=
  reads 3 ++ Sample.seek (Some Sample.bag) ++
  [Caller (Call CallNextFrame); Caller Tick; Prod RsOk; Prod RsOk;
   Caller Tick; Caller Tick; Caller Tick].

(** A bag whose depth stream has a format outside the tables. *)
Definition odd_profile : pipeline_profile :=
  mkProfile (mkStream (RS2_FORMAT_other 0) 30) (mkStream RS2_FORMAT_RGB8 30)
    "camera" "0001" 1000000.

End Scenario.

(** * Proofs *)

(** An event that is none of those a list of events shows. *)
Ltac no_event :=
  repeat (apply not_elem_of_cons; split; [discriminate|]);
  apply not_elem_of_nil.

Ltac window_solve :=
  cbn; intros; try done; try lia;
  try match goal with
      | Hr : ?c = C_NextReturn -> _, Hc : ?c = C_NextReturn |- _ =>
          destruct (Hr Hc) as [?|?]; [by left | right; lia]
      end.

(** ** Machine integers and ring indices *)

Lemma u64_nonneg (x : Z) : 0 <= u64 x.
Proof. unfold u64. apply Z.mod_pos_bound. lia. Qed.

Lemma u64_le (x : Z) : 0 <= x -> u64 x <= x.
Proof. unfold u64. intros H. apply Z.mod_le; lia. Qed.

Lemma u64_lt (x : Z) : u64 x < 2 ^ 64.
Proof. unfold u64. apply Z.mod_pos_bound. lia. Qed.

Lemma u64_small (x : Z) : 0 <= x < 2 ^ 64 -> u64 x = x.
Proof. unfold u64. apply Z.mod_small. Qed.

Lemma mod_distinct (a b n : Z) : 0 < a - b < n -> a mod n <> b mod n.
Proof.
  intros H E.
  assert (Hz : (a - b) mod n = 0) by (rewrite Zminus_mod, E, Z.sub_diag; done).
  rewrite Z.mod_small in Hz; lia.
Qed.

Lemma ring_index_distinct (a b n : Z) :
  0 <= b -> 0 < a - b < n ->
  Z.to_nat (a mod n) <> Z.to_nat (b mod n).
Proof.
  intros Hb H E. apply (mod_distinct a b n H).
  pose proof (Z.mod_pos_bound a n). pose proof (Z.mod_pos_bound b n). lia.
Qed.

(** ** End of stream *)

(** C4: [IsEOF] answers true exactly when [is_eof_] is set and the two
    counters are equal; whenever [tail_fid_ < head_fid_] it answers false,
    whatever the thread is doing.  The API call hands back that value and
    changes nothing. *)
Theorem IsEOF_iff (BRF : Z) (LT : bool) (s : state) :
  (IsEOF s = true <-> is_eof_ s = true /\ tail_fid_ s = head_fid_ s) /\
  (tail_fid_ s < head_fid_ s -> IsEOF s = false) /\
  begin_call BRF LT CallIsEOF s = Some (s, [EvReturn (RetBool (IsEOF s))]).
Proof.
  unfold IsEOF. split; [|split; [|reflexivity]].
  - rewrite andb_true_iff, Z.eqb_eq. tauto.
  - intros Hlt. destruct (Z.eqb_spec (tail_fid_ s) (head_fid_ s)) as [E|E].
    + lia.
    + by rewrite andb_false_r.
Qed.

(** ** Seeking past the end *)

(** C6: on an opened reader [SeekTimestamp(t)] with
    [t >= stream_length_usec_] logs a warning, returns false and leaves
    the whole reader state as it was, so [GetTimestamp] answers the same
    before and after. *)
Theorem SeekTimestamp_past_end (BRF : Z) (LT : bool) (s : state) (t : Z) :
  caller s = C_Idle ->
  IsOpened s = true ->
  stream_length_usec_ (metadata_ s) <= t ->
  exists s',
    caller_step BRF LT (Call (CallSeekTimestamp t)) s
      = Some (s', [EvLogWarning; EvReturn (RetBool false)]) /\
    s' = s /\ GetTimestamp s' = GetTimestamp s.
Proof.
  intros Hidle Hopen Hlen. exists s. split; [|done].
  unfold caller_step. rewrite Hidle. cbn [begin_call].
  rewrite Hopen. cbn [negb].
  destruct (Z.leb_spec (stream_length_usec_ (metadata_ s)) t); [done|lia].
Qed.

Lemma SeekTimestamp_past_end_witness :
  exists s',
    caller_step 2 false (Call (CallSeekTimestamp 1000000)) Sample.paused
      = Some (s', [EvLogWarning; EvReturn (RetBool false)]) /\
    s' = Sample.paused /\ GetTimestamp s' = GetTimestamp Sample.paused.
Proof.
  apply (SeekTimestamp_past_end 2 false Sample.paused 1000000).
  - reflexivity.
  - reflexivity.
  - vm_compute. discriminate.
Defined.

(** ** Calls on a reader that is not opened *)

(** While the thread is not running, a [NextFrame] that waits on an empty
    ring with [is_eof_] unset waits for ever: the only step any schedule
    can take is one more turn of the loop of line 251. *)
Lemma NextFrame_spins (BRF : Z) (LT : bool) (s : state) :
  caller s = C_NextWait ->
  pc (frame_reader_thread_ s) = P_NotStarted \/
  pc (frame_reader_thread_ s) = P_Returned ->
  is_eof_ s = false ->
  tail_fid_ s = head_fid_ s ->
  forall acts s' evs,
    run BRF LT acts s = Some (s', evs) -> s' = s /\ evs = [].
Proof.
  intros Hc Hp He Ht acts.
  induction acts as [|a acts IH]; intros s' evs Hrun; cbn [run] in Hrun.
  - by inversion Hrun.
  - assert (Hstep : step BRF LT a s = Some (s, []) \/ step BRF LT a s = None).
    { unfold step, fill_frame_buffer_step, caller_step.
      rewrite Hc, He, Ht, Z.eqb_refl.
      destruct Hp as [-> | ->], a as [r|[k| |md]]; auto. }
    destruct Hstep as [Hs|Hs]; rewrite Hs in Hrun; [|done].
    destruct (run BRF LT acts s) as [[s2 e2]|] eqn:Hrest; [|done].
    destruct (IH _ _ eq_refl) as [-> ->]. by inversion Hrun.
Qed.



(** ** The producer loop *)

(** C3: the thread is at the pull of lines 184-190 and the last frame
    number it saw is not newer than the last one it accepted.
    - A pulled frameset whose number is not above [dev_color_fid] changes
      neither ring nor counters, and the thread pulls again.
    - A pulled frameset with a greater number is stored in slot
      [head_fid_ mod size] with its position in microseconds, becomes the
      last accepted one, and [head_fid_] advances by one.
    - When the pull times out, [is_eof_] is set and the thread function
      returns, ring and counters untouched. *)
Theorem producer_pull_cases (BRF : Z) (LT : bool) (s : state) (fs : frameset) :
  pc (frame_reader_thread_ s) = P_Pull ->
  next_dev_color_fid (frame_reader_thread_ s)
    <= dev_color_fid (frame_reader_thread_ s) ->
  (frame_number fs <= dev_color_fid (frame_reader_thread_ s) ->
   exists s',
     step BRF LT (Prod (RsFrames fs)) s = Some (s', []) /\
     pc (frame_reader_thread_ s') = P_Pull /\
     next_dev_color_fid (frame_reader_thread_ s')
       <= dev_color_fid (frame_reader_thread_ s') /\
     dev_color_fid (frame_reader_thread_ s')
       = dev_color_fid (frame_reader_thread_ s) /\
     frame_buffer_ s' = frame_buffer_ s /\
     frame_position_us_ s' = frame_position_us_ s /\
     head_fid_ s' = head_fid_ s /\
     is_eof_ s' = is_eof_ s) /\
  (dev_color_fid (frame_reader_thread_ s) < frame_number fs ->
   forall r1 r2 r3, r2 <> RsError ->
   exists s',
     run BRF LT [Prod (RsFrames fs); Prod r1; Prod r2; Prod r3] s
       = Some (s', [EvAccept fs]) /\
     frame_buffer_ s'
       = <[Z.to_nat (head_fid_ s mod size s) := to_rgbd fs]>
           (frame_buffer_ s) /\
     frame_position_us_ s'
       = <[Z.to_nat (head_fid_ s mod size s) := position_ns fs / 1000]>
           (frame_position_us_ s) /\
     head_fid_ s' = u64 (head_fid_ s + 1) /\
     dev_color_fid (frame_reader_thread_ s') = frame_number fs /\
     pc (frame_reader_thread_ s') = P_CheckOpened /\
     is_eof_ s' = is_eof_ s) /\
  (forall r,
   exists s',
     run BRF LT [Prod RsTimeout; Prod r] s = Some (s', [EvEof]) /\
     is_eof_ s' = true /\
     pc (frame_reader_thread_ s') = P_Returned /\
     frame_buffer_ s' = frame_buffer_ s /\
     frame_position_us_ s' = frame_position_us_ s /\
     head_fid_ s' = head_fid_ s).
Proof.
  destruct s as [buf pos h t e o f m [l st nx dv fr] c]. cbn.
  intros -> Hnx. repeat split.
  - intros Hrep. eexists.
    unfold step, fill_frame_buffer_step. cbn.
    destruct (Z.leb_spec nx dv); [|lia]. split; [reflexivity|]. cbn.
    repeat split; try done.
  - intros Hnew r1 r2 r3 Hr2. eexists.
    unfold run, step, fill_frame_buffer_step. cbn.
    destruct (Z.leb_spec nx dv); [|lia]. cbn.
    destruct (Z.leb_spec (frame_number fs) dv); [lia|]. cbn.
    destruct r2; try done; cbn; repeat split; done.
  - intros r. eexists.
    unfold run, step, fill_frame_buffer_step. cbn.
    destruct (Z.leb_spec nx dv); [|lia]. cbn.
    repeat split; done.
Qed.

Lemma producer_pull_cases_witness :
  (exists s',
     step 2 false (Prod (RsFrames (Sample.frame 0))) Sample.pulling
       = Some (s', []) /\
     head_fid_ s' = 0) /\
  (exists s',
     run 2 false [Prod (RsFrames (Sample.frame 1)); Prod RsOk; Prod RsOk;
                  Prod RsOk] Sample.pulling
       = Some (s', [EvAccept (Sample.frame 1)]) /\
     head_fid_ s' = 1 /\
     slot s' 0 = to_rgbd (Sample.frame 1) /\
     slot_position s' 0 = 33000) /\
  (exists s',
     run 2 false [Prod RsTimeout; Prod RsOk] Sample.pulling
       = Some (s', [EvEof]) /\
     is_eof_ s' = true).
Proof.
  destruct (producer_pull_cases 2 false Sample.pulling (Sample.frame 0))
    as (Hrep & _ & Hto); [reflexivity | vm_compute; discriminate |].
  destruct (producer_pull_cases 2 false Sample.pulling (Sample.frame 1))
    as (_ & Hnew & _); [reflexivity | vm_compute; discriminate |].
  split; [|split].
  - destruct Hrep as (s' & Hs & _ & _ & _ & _ & _ & Hh & _).
    + vm_compute; discriminate.
    + exists s'. split; [exact Hs | exact Hh].
  - destruct (Hnew eq_refl RsOk RsOk RsOk) as (s' & Hs & Hb & Hp & Hh & _).
    + discriminate.
    + exists s'. split; [exact Hs|].
      unfold slot, slot_position. rewrite Hb, Hp, Hh. vm_compute. done.
  - destruct (Hto RsOk) as (s' & Hs & He & _).
    exists s'. split; [exact Hs | exact He].
Defined.

(** ** Flow control *)

Lemma lifecycle_RSBagReader (n : nat) : lifecycle (RSBagReader n).
Proof. split; cbn; [by left | done]. Qed.

Lemma lifecycle_step (BRF : Z) (LT : bool) (a : action) (s s' : state)
    (evs : list event) :
  lifecycle s -> step BRF LT a s = Some (s', evs) -> lifecycle s'.
Proof.
  destruct s as [buf pos h t e o f m [l st nx dv fr] c].
  unfold lifecycle, step, fill_frame_buffer_step, caller_step, begin_call,
    on_error.
  cbn. intros [H1 H2] Hs.
  destruct a as [r|ci].
  - destruct o.
    + destruct (H2 eq_refl) as [-> | [-> | [-> | [i ->]]]];
        destruct l; try done; cbn in Hs;
        repeat (match type of Hs with
                | context [if ?b then _ else _] => destruct b
                | context [match ?r with RsOk => _ | _ => _ end] => destruct r
                end; cbn in Hs);
        inversion Hs; subst; cbn; split; intros; try done; auto.
    + destruct (H1 eq_refl) as [->|[k ->]]; [done|].
      destruct l; try done; cbn in Hs;
        repeat (match type of Hs with
                | context [if ?b then _ else _] => destruct b
                | context [match ?r with RsOk => _ | _ => _ end] => destruct r
                end; cbn in Hs);
        inversion Hs; subst; cbn; split; intros; try done; eauto.
  - destruct l; try done;
      destruct c as [| | |i|k|f' t' b'], ci as [k'| |md]; try done; cbn in Hs;
      try destruct k'; try destruct k; try destruct md; cbn in Hs;
      repeat (match type of Hs with
              | context [if ?b then _ else _] => destruct b eqn:?
              end; cbn in Hs);
      inversion Hs; subst; cbn in *; split; intros; try done; eauto;
      try (destruct o; [destruct (H2 eq_refl) as [?|[?|[?|[? ?]]]]; done|]);
      try (destruct (H1 eq_refl) as [?|[? ?]]; done); auto.
Qed.

Lemma tail_nonneg_step (BRF : Z) (LT : bool) (a : action) (s s' : state)
    (evs : list event) :
  0 <= tail_fid_ s -> step BRF LT a s = Some (s', evs) -> 0 <= tail_fid_ s'.
Proof.
  destruct s as [buf pos h t e o f m [l st nx dv fr] c].
  unfold step, fill_frame_buffer_step, caller_step, begin_call, on_error.
  cbn. intros Ht Hs.
  destruct a as [r|ci].
  - destruct l; try done; cbn in Hs;
      repeat (match type of Hs with
              | context [if ?b then _ else _] => destruct b
              | context [match ?r with RsOk => _ | _ => _ end] => destruct r
              end; cbn in Hs);
      inversion Hs; subst; cbn; done.
  - destruct l; try done;
      destruct c as [| | |i|k|f' t' b'], ci as [k'| |md]; try done; cbn in Hs;
      try destruct k'; try destruct k; try destruct md; cbn in Hs;
      repeat (match type of Hs with
              | context [if ?b then _ else _] => destruct b
              end; cbn in Hs);
      inversion Hs; subst; cbn; try done; apply u64_nonneg.
Qed.

(** While the reader is opened, one step of any thread leaves a thread
    that waits above the refill mark exactly where it is. *)
Lemma wait_blocked (BRF : Z) (LT : bool) (a : action) (s s' : state)
    (evs : list event) :
  0 <= BRF -> 0 <= tail_fid_ s -> lifecycle s ->
  pc (frame_reader_thread_ s) = P_Wait ->
  above_refill BRF s ->
  step BRF LT a s = Some (s', evs) ->
  frame_reader_thread_ s' = frame_reader_thread_ s /\
  head_fid_ s' = head_fid_ s /\
  frame_buffer_ s' = frame_buffer_ s /\
  frame_position_us_ s' = frame_position_us_ s /\
  (EvResume ∉ evs) /\ (forall fs, EvAccept fs ∉ evs).
Proof.
  destruct s as [buf pos h t e o f m [l st nx dv fr] c].
  unfold lifecycle, above_refill, step, fill_frame_buffer_step, caller_step,
    begin_call, need_frames_pred, below_refill, size.
  cbn. intros HB Ht [_ Hl] -> [-> Hab] Hs.
  destruct (Hl eq_refl) as [-> | [-> | [-> | [i ->]]]]; clear Hl.
  all: destruct a as [r|ci]; cbn in Hs.
  all: try (destruct (Z.ltb_spec h (u64 (t + Z.of_nat (length buf) / BRF)));
            [ pose proof (u64_le (t + Z.of_nat (length buf) / BRF));
              pose proof (Z_div_nonneg_nonneg (Z.of_nat (length buf)) BRF);
              lia | done ]).
  all: destruct ci as [k'| |md]; try done; try destruct k'; cbn in Hs;
      repeat (match type of Hs with
              | context [if ?b then _ else _] => destruct b
              end; cbn in Hs);
      inversion Hs; subst; cbn;
      repeat split; try done; first [no_event | intros fs; no_event].
Qed.

(** The caller's thread does not touch a thread that waits. *)
Lemma caller_step_waiting_thread (BRF : Z) (LT : bool) (c : cinput)
    (s s' : state) (evs : list event) :
  lifecycle s ->
  pc (frame_reader_thread_ s) = P_Wait ->
  caller_step BRF LT c s = Some (s', evs) ->
  frame_reader_thread_ s' = frame_reader_thread_ s.
Proof.
  destruct s as [buf pos h t e o f m [l st nx dv fr] ca].
  unfold lifecycle, caller_step, begin_call. cbn. intros [H1 H2] -> Hs.
  destruct o.
  - destruct (H2 eq_refl) as [-> | [-> | [-> | [i ->]]]];
      destruct c as [k| |md]; try done; try destruct k; cbn in Hs;
      repeat (match type of Hs with
              | context [if ?b then _ else _] => destruct b
              end; cbn in Hs);
      by inversion Hs.
  - destruct (H1 eq_refl) as [|[k ->]]; [done|].
    by destruct c.
Qed.

(** C8: a thread that waits at line 228 of an opened reader does not move
    as long as more than [size / BUFFER_REFILL_FACTOR] frames are unread:
    over any schedule whose every step starts from such a state it stays
    at line 228, resumes nothing, accepts nothing and leaves [head_fid_]
    and the ring alone.  A step that takes it out of the wait finds the
    reader closing or fewer than [size / BUFFER_REFILL_FACTOR] frames
    unread, and puts the thread back at line 177, from where an opened
    reader resumes the device and goes on to fill. *)
Theorem paused_until_refill (BRF : Z) (LT : bool) (s : state) :
  0 <= BRF -> 0 <= tail_fid_ s -> lifecycle s ->
  pc (frame_reader_thread_ s) = P_Wait ->
  (forall acts s' evs,
     always_before BRF LT (above_refill BRF) acts s ->
     run BRF LT acts s = Some (s', evs) ->
     pc (frame_reader_thread_ s') = P_Wait /\
     head_fid_ s' = head_fid_ s /\
     frame_buffer_ s' = frame_buffer_ s /\
     frame_position_us_ s' = frame_position_us_ s /\
     (EvResume ∉ evs) /\ (forall fs, EvAccept fs ∉ evs)) /\
  (forall a s' evs,
     step BRF LT a s = Some (s', evs) ->
     pc (frame_reader_thread_ s') <> P_Wait ->
     (is_opened_ s = false \/ head_fid_ s - tail_fid_ s < size s / BRF) /\
     pc (frame_reader_thread_ s') = P_Outer /\
     (is_opened_ s' = true ->
      forall r, r <> RsError ->
      step BRF LT (Prod r) s' = Some (goto P_Inner s', [EvResume]))).
Proof.
  intros HB Ht Hl Hpc. split.
  - intros acts. revert s Ht Hl Hpc.
    induction acts as [|a acts IH]; intros s Ht Hl Hpc s' evs Hal Hrun;
      cbn [run always_before] in *.
    + inversion Hrun; subst. repeat split; try done.
      * apply not_elem_of_nil.
      * intros fs. apply not_elem_of_nil.
    + destruct Hal as [Hab Hal].
      destruct (step BRF LT a s) as [[s1 e1]|] eqn:Hs; [|done].
      destruct (run BRF LT acts s1) as [[s2 e2]|] eqn:Hr; [|done].
      inversion Hrun; subst. clear Hrun.
      destruct (wait_blocked _ _ _ _ _ _ HB Ht Hl Hpc Hab Hs)
        as (Hth & Hh & Hb & Hp & Hres & Hacc).
      destruct (IH s1) with (s' := s') (evs := e2)
        as (Hpc' & Hh' & Hb' & Hp' & Hres' & Hacc'); try done.
      * eapply tail_nonneg_step; eauto.
      * eapply lifecycle_step; eauto.
      * by rewrite Hth.
      * repeat split; try congruence.
        -- rewrite elem_of_app. tauto.
        -- intros fs. rewrite elem_of_app. specialize (Hacc fs).
           specialize (Hacc' fs). tauto.
  - intros a s' evs Hs Hne.
    destruct a as [r|c].
    + clear Hl. destruct s as [buf pos h t e o f m [l st nx dv fr] ca].
      cbn in *. subst l.
      unfold step, fill_frame_buffer_step, need_frames_pred, below_refill,
        size in Hs.
      cbn in Hs.
      destruct o; cbn in Hs.
      * destruct (Z.ltb_spec h (u64 (t + Z.of_nat (length buf) / BRF)));
          [|done].
        inversion Hs; subst. cbn. repeat split; try done.
        -- right. unfold size. cbn.
           pose proof (u64_le (t + Z.of_nat (length buf) / BRF)).
           pose proof (Z_div_nonneg_nonneg (Z.of_nat (length buf)) BRF).
           lia.
        -- intros _ r' Hr. unfold step, fill_frame_buffer_step. cbn.
           by destruct r'.
      * inversion Hs; subst. cbn. repeat split; try done. by left.
    + exfalso. apply Hne.
      unfold step in Hs. rewrite Hpc in Hs.
      by rewrite (caller_step_waiting_thread _ _ _ _ _ _ Hl Hpc Hs).
Qed.

Lemma paused_until_refill_witness :
  exists s',
    run 2 false Sample.next Sample.paused
      = Some (s', [EvReturn (RetFrame (to_rgbd (Sample.frame 2)))]) /\
    head_fid_ s' - tail_fid_ s' = 2 /\
    pc (frame_reader_thread_ s') = P_Wait.
Proof.
  destruct (paused_until_refill 2 false Sample.paused) as [Hstay _].
  - lia.
  - vm_compute. discriminate.
  - split; vm_compute; [discriminate | auto].
  - reflexivity.
  - eexists. split; [vm_compute; reflexivity|].
    split; [reflexivity|].
    (* the copy of line 261 leaves the thread where the increment found
       it *)
    change (pc (frame_reader_thread_
                  (Sample.after [Caller (Call CallNextFrame); Caller Tick;
                                 Caller Tick] Sample.paused)) = P_Wait).
    eapply (Hstay [Caller (Call CallNextFrame); Caller Tick; Caller Tick]);
      [|vm_compute; reflexivity].
    vm_compute. repeat split; discriminate.
Defined.

(** ** Errors in the thread *)

(** The handlers of lines 234-239 leave [is_eof_] as it is. *)
Lemma on_error_is_eof (LT : bool) (s : state) :
  is_eof_ (on_error LT s).1 = is_eof_ s /\
  (EvEof ∉ (on_error LT s).2) /\
  (pc (frame_reader_thread_ (on_error LT s).1) = P_Returned \/
   pc (frame_reader_thread_ (on_error LT s).1) = P_Terminated).
Proof.
  unfold on_error. destruct LT; cbn; repeat split; auto; no_event.
Qed.

(** Whatever call into librealsense throws, the step of the thread that
    made it ends the thread and does not set [is_eof_]. *)
Lemma producer_error_is_eof (BRF : Z) (LT : bool) (s s' : state)
    (evs : list event) :
  fill_frame_buffer_step BRF LT RsError s = Some (s', evs) ->
  EvLogError ∈ evs ->
  is_eof_ s' = is_eof_ s /\
  (pc (frame_reader_thread_ s') = P_Returned \/
   pc (frame_reader_thread_ s') = P_Terminated).
Proof.
  destruct s as [buf pos h t e o f m [l st nx dv fr] c].
  unfold fill_frame_buffer_step, on_error. cbn. intros Hs Hin.
  destruct l; try done; cbn in Hs;
    repeat (match type of Hs with
            | context [if ?b then _ else _] => destruct b
            end; cbn in Hs);
    inversion Hs; subst; cbn; auto;
    exfalso; revert Hin; no_event.
Qed.

(** C9, the code at a failing input: a four-slot reader is opened and the
    first pull of its thread throws.  If [LogError] returns, the thread
    function returns with [is_eof_] unset, [IsEOF] answers false, and a
    [NextFrame] called afterwards never returns; if [LogError] throws, the
    exception leaves the thread function. *)
Theorem producer_error_leaves_is_eof_unset :
  (exists s,
     run 2 false (Sample.open 0 ++ Sample.boot ++ [Prod RsOk; Prod RsError])
       (RSBagReader 4)
       = Some (s, [EvLogInfo; EvReturn (RetBool true); EvSeek 0; EvResume;
                   EvLogError]) /\
     pc (frame_reader_thread_ s) = P_Returned /\
     IsOpened s = true /\ is_eof_ s = false /\ IsEOF s = false /\
     forall acts s' evs,
       run 2 false (Caller (Call CallNextFrame) :: acts) s = Some (s', evs) ->
       caller s' = C_NextWait /\ evs = [EvNotify]) /\
  (exists s,
     run 2 true (Sample.open 0 ++ Sample.boot ++ [Prod RsOk; Prod RsError])
       (RSBagReader 4)
       = Some (s, [EvLogInfo; EvReturn (RetBool true); EvSeek 0; EvResume;
                   EvLogError; EvTerminate]) /\
     pc (frame_reader_thread_ s) = P_Terminated /\
     is_eof_ s = false).
Proof.
  split.
  - eexists. split; [vm_compute; reflexivity|].
    do 4 (split; [reflexivity|]).
    intros acts s' evs Hrun. cbn [run] in Hrun.
    match type of Hrun with
    | context [step 2 false ?a ?s] =>
        let r := eval vm_compute in (step 2 false a s) in
        change (step 2 false a s) with r in Hrun
    end.
    cbv iota beta in Hrun.
    destruct (run 2 false acts _) as [[s2 e2]|] eqn:Hr; [|done].
    apply NextFrame_spins in Hr as [-> ->]; try done; [|by right].
    by inversion Hrun.
  - eexists. split; [vm_compute; reflexivity|]. done.
Qed.

(** ** Seeking *)

(** A restart of the pipeline that fails inside [SeekTimestamp] is
    answered with true. *)
Lemma SeekTimestamp_ignores_Open (BRF : Z) (LT : bool) (s : state)
    (f : string) (t : Z) :
  caller s = C_Start f t true ->
  caller_step BRF LT (PipeStart None) s
    = Some (set_caller C_Idle s, [EvLogWarning; EvReturn (RetBool true)]).
Proof. unfold caller_step. by intros ->. Qed.

(** C7, the code at a failing input: the reader of [Sample.paused] is
    opened on a bag of one second, holds [head_fid_ = 4] and
    [tail_fid_ = 1], and is asked to seek to 0.5 s ([Sample.seek]).
    [pipe_->start] throws: [SeekTimestamp] returns true, and the reader
    is left closed, without a thread, with its counters where they were.
    When [pipe_->start] succeeds, [SeekTimestamp] returns true before
    either counter has been reset. *)
Theorem SeekTimestamp_failed_restart_returns_true :
  IsOpened Sample.paused = true /\
  500000 < stream_length_usec_ (metadata_ Sample.paused) /\
  (exists s',
     run 2 false (Sample.seek None) Sample.paused
       = Some (s', [EvNotify; EvLogWarning; EvReturn (RetBool true)]) /\
     IsOpened s' = false /\
     pc (frame_reader_thread_ s') = P_NotStarted /\
     head_fid_ s' = 4 /\ tail_fid_ s' = 1) /\
  (exists s',
     run 2 false (Sample.seek (Some Sample.bag)) Sample.paused
       = Some (s', [EvNotify; EvLogInfo; EvReturn (RetBool true)]) /\
     IsOpened s' = true /\
     pc (frame_reader_thread_ s') = P_Seek /\
     start_time_us (frame_reader_thread_ s') = 500000 /\
     head_fid_ s' = 4 /\ tail_fid_ s' = 1).
Proof.
  split; [reflexivity|]. split; [reflexivity|]. split.
  - eexists. split; [vm_compute; reflexivity|]. done.
  - eexists. split; [vm_compute; reflexivity|]. done.
Qed.

(** ** The window between the counters *)

(** C1, the code at a failing input: [SeekTimestamp] has restarted the
    reader of [Sample.paused], whose counters are 4 and 1; the restarted
    reader is opened and its counters are still 4 and 1.
    - The new thread seeks (line 170) and stores 0 in [head_fid_]
      (line 172): the reader is opened with [head_fid_ = 0] and
      [tail_fid_ = 1].
    - A [NextFrame] that passed line 251 before the stores of lines
      172-173 evaluates line 257 after them: it finds the counters equal
      and [is_eof_] unset, reads slot 0 and advances [tail_fid_] to 1
      while [head_fid_] is 0 and the thread is past its resets. *)
Theorem restart_breaks_window :
  IsOpened Sample.restarted = true /\
  head_fid_ Sample.restarted = 4 /\ tail_fid_ Sample.restarted = 1 /\
  (exists s',
     run 2 false [Prod RsOk; Prod RsOk] Sample.restarted
       = Some (s', [EvSeek 500000]) /\
     IsOpened s' = true /\
     head_fid_ s' = 0 /\ tail_fid_ s' = 1 /\ ~ window s') /\
  (exists s',
     run 2 false Sample.next_across_resets Sample.restarted
       = Some (s', [EvSeek 500000;
                    EvReturn (RetFrame (to_rgbd (Sample.frame 1)))]) /\
     IsOpened s' = true /\
     pc (frame_reader_thread_ s') = P_Outer /\
     head_fid_ s' = 0 /\ tail_fid_ s' = 1 /\ ~ window s').
Proof.
  do 3 (split; [reflexivity|]). split.
  - eexists. split; [vm_compute; reflexivity|].
    do 3 (split; [reflexivity|]). vm_compute. intros [H _]. by apply H.
  - eexists. split; [vm_compute; reflexivity|].
    do 4 (split; [reflexivity|]). vm_compute. intros [H _]. by apply H.
Qed.

Lemma window_inv_window (s : state) : window_inv s -> window s.
Proof. intros [? ? ? ? _ _ _]. unfold window. lia. Qed.

Lemma window_inv_step (BRF : Z) (LT : bool) (a : action) (s s' : state)
    (evs : list event) :
  window_inv s -> clean_launch a s ->
  step BRF LT a s = Some (s', evs) -> window_inv s'.
Proof.
  destruct s as [buf pos h t e o f m [l st nx dv fr] c].
  intros [Ht Hle Hcap Hh Hst Hsto Hret] Hcl Hs.
  unfold step, fill_frame_buffer_step, caller_step, begin_call, on_error,
    has_room,
    size in *. cbn in *.
  destruct a as [r|ci].
  - destruct l; try done; cbn in *.
    all: try (destruct (Hst eq_refl) as (-> & -> & ->)).
    all: try (destruct (Hsto eq_refl) as [Hroom Hmax]).
    all: repeat (match type of Hs with
                 | context [Z.ltb ?a ?b] => destruct (Z.ltb_spec a b)
                 | context [if ?b then _ else _] => destruct b eqn:?
                 | context [match ?r with RsOk => _ | _ => _ end] =>
                     destruct r
                 end; cbn in Hs); try done.
    all: inversion Hs; subst; clear Hs.
    all: try rewrite (u64_small (h + 1)) by lia.
    all: try (pose proof (u64_lt (t + Z.of_nat (length buf)));
              pose proof (u64_le (t + Z.of_nat (length buf)))).
    all: constructor; unfold size; cbn; rewrite ?length_insert;
      window_solve.
  - unfold clean_launch in Hcl. cbn in Hcl.
    destruct l; try done;
      destruct c as [| | |i|k|f' t' b'], ci as [k'| |md]; try done; cbn in Hs;
      try destruct k'; try destruct k; try destruct md; cbn in Hs.
    all: destruct e, o; cbn in Hs.
    all: repeat (match type of Hs with
                 | context [Z.eqb ?a ?b] => destruct (Z.eqb_spec a b)
                 | context [if ?b then _ else _] => destruct b eqn:?
                 end; cbn in Hs); try done.
    all: inversion Hs; subst; clear Hs.
    all: try match type of Hcl with _ /\ _ => destruct Hcl as [-> ->] end.
    all: try (destruct (Hst eq_refl) as (? & ? & ?); try done; subst).
    all: try (destruct (Hsto eq_refl) as [Hroom Hmax]).
    all: try (destruct (Hret eq_refl) as [?|?]; try done; try lia).
    all: try rewrite (u64_small (t + 1)) by lia.
    all: constructor; unfold size; cbn; window_solve.
Qed.

Lemma window_inv_RSBagReader (n : nat) : window_inv (RSBagReader n).
Proof.
  constructor; unfold size; cbn; try done; lia.
Qed.

Lemma window_inv_run (BRF : Z) (LT : bool) (acts : list action) :
  forall (s s' : state) (evs : list event),
    window_inv s ->
    clean_launches BRF LT acts s ->
    run BRF LT acts s = Some (s', evs) ->
    window_inv s'.
Proof.
  induction acts as [|a acts IH]; intros s s' evs Hinv Hcl Hrun;
    cbn [run clean_launches] in *.
  - by inversion Hrun; subst.
  - destruct Hcl as [Ha Hcl].
    destruct (step BRF LT a s) as [[s1 e1]|] eqn:Hs; [|done].
    destruct (run BRF LT acts s1) as [[s2 e2]|] eqn:Hr; [|done].
    inversion Hrun; subst.
    eapply IH; [|exact Hcl|exact Hr].
    eapply window_inv_step; eauto.
Qed.

(** X1: the window holds at every point of every schedule whose launches
    find both counters at zero: from a state that satisfies the window
    invariant, such a schedule leads to a state that satisfies it, with
    [0 <= head_fid_ - tail_fid_ <= size]. *)
Theorem window_clean_sessions (BRF : Z) (LT : bool) (acts : list action)
    (s s' : state) (evs : list event) :
  window_inv s ->
  clean_launches BRF LT acts s ->
  run BRF LT acts s = Some (s', evs) ->
  window_inv s' /\ window s'.
Proof.
  intros Hinv Hcl Hrun.
  assert (Hinv' : window_inv s') by (eapply window_inv_run; eauto).
  split; [done|]. by apply window_inv_window.
Qed.

Lemma no_launch_clean (BRF : Z) (LT : bool) (acts : list action) :
  forall s : state,
    count_occ bool_dec (is_launch <$> acts) true = 0%nat ->
    clean_launches BRF LT acts s.
Proof.
  induction acts as [|a acts IH]; intros s Hc; cbn in *; [done|].
  destruct (is_launch a) eqn:Ha; cbn in Hc; [done|].
  split.
  - unfold clean_launch. destruct a as [r|[k| |[md|]]]; try done.
  - destruct (step BRF LT a s) as [[s1 e1]|]; [|done]. by apply IH.
Qed.

(** Before the first launch nothing moves the counters. *)
Lemma before_first_launch (BRF : Z) (LT : bool) (a : action) (s s' : state)
    (evs : list event) :
  window_inv s ->
  head_fid_ s = 0 -> tail_fid_ s = 0 ->
  pc (frame_reader_thread_ s) = P_NotStarted ->
  is_launch a = false ->
  step BRF LT a s = Some (s', evs) ->
  head_fid_ s' = 0 /\ tail_fid_ s' = 0 /\
  pc (frame_reader_thread_ s') = P_NotStarted.
Proof.
  destruct s as [buf pos h t e o f m [l st nx dv fr] c].
  intros [_ _ _ _ _ _ Hret]. cbn in *. intros -> -> -> Ha Hs.
  unfold step, fill_frame_buffer_step, caller_step, begin_call in Hs. cbn in Hs.
  destruct a as [r|ci]; [done|].
  destruct c as [| | |i|k|f' t' b'], ci as [k'| |md]; try done; cbn in Hs;
    try destruct k'; try destruct k; try destruct md; try done; cbn in Hs.
  all: destruct e, o; cbn in Hs.
  all: repeat (match type of Hs with
               | context [if ?b then _ else _] => destruct b eqn:?
               end; cbn in Hs); try done.
  all: inversion Hs; subst; clear Hs; try done.
  all: destruct (Hret eq_refl); done.
Qed.

(** X2: from construction to the end of its first session, a reader keeps
    the window: at every point of every schedule that launches the thread at
    most once, [0 <= head_fid_ - tail_fid_ <= size]. *)
Theorem window_first_session (BRF : Z) (LT : bool) (n : nat)
    (acts : list action) (s : state) (evs : list event) :
  (count_occ bool_dec (is_launch <$> acts) true <= 1)%nat ->
  run BRF LT acts (RSBagReader n) = Some (s, evs) ->
  window s.
Proof.
  intros Hc Hrun. apply window_inv_window.
  eapply (window_inv_run BRF LT acts (RSBagReader n)); eauto using
    window_inv_RSBagReader.
  clear Hrun.
  assert (Hgen : forall s0 : state,
             window_inv s0 -> head_fid_ s0 = 0 -> tail_fid_ s0 = 0 ->
             pc (frame_reader_thread_ s0) = P_NotStarted ->
             clean_launches BRF LT acts s0).
  { induction acts as [|a acts IH]; intros s0 Hinv Hh Ht Hp; cbn in *;
      [done|].
    assert (Hcl : clean_launch a s0).
    { unfold clean_launch. destruct a as [r|[k| |[md|]]]; try done.
      by destruct (caller s0). }
    split; [done|].
    destruct (step BRF LT a s0) as [[s1 e1]|] eqn:Hs; [|done].
    destruct (is_launch a) eqn:Ha; cbn in Hc.
    - apply no_launch_clean. lia.
    - destruct (before_first_launch _ _ _ _ _ _ Hinv Hh Ht Hp Ha Hs)
        as (? & ? & ?).
      apply IH; try done. eapply window_inv_step; eauto. }
  apply Hgen; try done. apply window_inv_RSBagReader.
Qed.

Lemma window_clean_sessions_witness :
  window (Sample.after Sample.full4 (RSBagReader 4)).
Proof.
  eapply (window_clean_sessions 2 false Sample.full4 (RSBagReader 4)).
  - apply window_inv_RSBagReader.
  - vm_compute. repeat split.
  - vm_compute. reflexivity.
Defined.

Lemma window_first_session_witness : window Sample.paused.
Proof.
  eapply (window_first_session 2 false 4 (Sample.full4 ++ Sample.next)).
  - vm_compute. lia.
  - vm_compute. reflexivity.
Defined.

(** ** Order of delivery *)

(** C2, the code at a failing input: [SeekTimestamp] has restarted the
    reader of [Sample.paused]; the bag delivers framesets 16 and 17 from
    the new position.
    - [NextFrame] is called before the new thread has run: it returns the
      image of frameset 2, buffered before the seek, and then 16 and 17.
    - [NextFrame] passes line 251 before the stores of lines 172-173 and
      evaluates line 257 after them: it returns the image of frameset 1,
      and the next call returns 17: frameset 16 is accepted and never
      returned, although both counters end at 2.
    - Over the whole life of that reader the image of frameset 1 is
      returned twice. *)
Theorem restart_returns_stale_frames :
  (exists s',
     run 2 false
       (Sample.next ++ Sample.boot ++ Sample.accept 16 ++ Sample.accept 17 ++
        Sample.next ++ Sample.next) Sample.restarted
       = Some (s', [EvReturn (RetFrame (to_rgbd (Sample.frame 2)));
                    EvSeek 500000; EvResume;
                    EvAccept (Sample.frame 16); EvAccept (Sample.frame 17);
                    EvReturn (RetFrame (to_rgbd (Sample.frame 16)));
                    EvNotify;
                    EvReturn (RetFrame (to_rgbd (Sample.frame 17)))])) /\
  (exists s' evs,
     run 2 false
       (Sample.next_across_resets ++ [Prod RsOk] ++
        Sample.accept 16 ++ Sample.accept 17 ++ Sample.next) Sample.restarted
       = Some (s', evs) /\
     accepted evs = [Sample.frame 16; Sample.frame 17] /\
     returned evs = [to_rgbd (Sample.frame 1); to_rgbd (Sample.frame 17)] /\
     head_fid_ s' = 2 /\ tail_fid_ s' = 2) /\
  (exists s' evs,
     run 2 false
       (Sample.full4 ++ Sample.next ++ Sample.seek (Some Sample.bag) ++
        Sample.next_across_resets ++ [Prod RsOk] ++
        Sample.accept 16 ++ Sample.accept 17 ++ Sample.next) (RSBagReader 4)
       = Some (s', evs) /\
     accepted evs = Sample.frame <$> [1; 2; 3; 4; 16; 17] /\
     returned evs = to_rgbd <$> (Sample.frame <$> [1; 1; 17])).
Proof.
  split; [|split].
  - eexists. vm_compute. reflexivity.
  - eexists. eexists. split; [vm_compute; reflexivity|]. done.
  - eexists. eexists. split; [vm_compute; reflexivity|]. done.
Qed.

Lemma ring_inv_producer_step (BRF : Z) (LT : bool) (r : rs_reply)
    (s s' : state) (evs : list event) (acc : list frameset) :
  ring_inv s acc ->
  fill_frame_buffer_step BRF LT r s = Some (s', evs) ->
  ring_inv s' (acc ++ accepted evs).
Proof.
  intros [Hw Hh Hring Hsort Hdev Hfr Hwrite Hinc] Hs.
  pose proof (window_inv_step BRF LT (Prod r) s s' evs Hw I) as Hw'.
  destruct Hw as [Ht Hle Hcap Hhd Hst Hsto Hret].
  destruct s as [buf pos h t e o f m [l st nx dv fr] c].
  unfold step in Hw'. unfold oldest_kept in *.
  unfold fill_frame_buffer_step, on_error, has_room, size in *. cbn in *.
  destruct l; try done; cbn in *.
  all: repeat (match type of Hs with
               | context [Z.leb ?a ?b] => destruct (Z.leb_spec a b)
               | context [if ?b then _ else _] => destruct b eqn:?
               | context [match ?r with RsOk => _ | _ => _ end] => destruct r
               end; cbn in Hs); try done.
  all: specialize (Hw' Hs).
  all: try (destruct (Hst eq_refl) as (Hh0 & -> & ->);
            assert (acc = []) as -> by (apply length_zero_iff_nil; lia)).
  all: try (destruct (Hsto eq_refl) as [Hroom Hmax]).
  all: try (destruct (Hinc eq_refl) as (Hfn & Hlt & Hslot)).
  all: try specialize (Hwrite eq_refl).
  all: inversion Hs; subst; clear Hs; cbn [accepted returned omap].
  all: rewrite ?app_nil_r.
  all: constructor; unfold oldest_kept; cbn; unfold size; cbn; try done.
  all: rewrite ?length_insert.
  all: try (intros i Hi0 Hi; apply Hring; lia).
  all: try (intros i Hi0 Hi; lia).
  (* lines 193-212: the store into slot head mod size *)
  all: try match goal with
       | |- forall i : Z, _ -> _ -> <[_:=_]> _ !! _ = _ =>
           intros i Hi0 Hi; rewrite list_lookup_insert_ne;
           [apply Hring; lia | apply ring_index_distinct; lia]
       | |- Forall _ _ =>
           eapply Forall_impl; [exact Hdev | cbn; intros; lia]
       | |- P_IncHead = P_IncHead -> _ =>
           intros _; split; [done|split];
           [ eapply Forall_impl; [exact Hdev | cbn; intros; lia]
           | apply list_lookup_insert_eq;
             match goal with
             | |- (Z.to_nat (?a mod ?n) < _)%nat =>
                 pose proof (Z.mod_pos_bound a n); lia
             end ]
       end.
  (* line 213: the frameset stored last becomes the newest accepted one *)
  - rewrite length_app. cbn. rewrite u64_small by lia. lia.
  - intros i Hi0 Hi. rewrite u64_small in Hi by lia.
    destruct (decide (i = Z.of_nat (length acc))) as [->|Hne].
    + rewrite Hslot, Nat2Z.id, list_lookup_middle; done.
    + rewrite lookup_app_l by lia. apply Hring; lia.
  - rewrite fmap_app. apply StronglySorted_app_2; [|done|].
    + intros x1 x2 Hx1 Hx2. apply list_elem_of_singleton in Hx2 as ->.
      apply list_elem_of_fmap in Hx1 as (fs & -> & Hfs).
      rewrite Forall_forall in Hlt. by apply Hlt.
    + repeat constructor.
  - apply Forall_app. split; [done|]. repeat constructor. lia.
Qed.

Lemma ring_inv_caller_step (BRF : Z) (LT : bool) (ci : cinput)
    (s s' : state) (evs : list event) (acc : list frameset) :
  ring_inv s acc ->
  is_launch (Caller ci) = false ->
  caller_step BRF LT ci s = Some (s', evs) ->
  pc (frame_reader_thread_ s) <> P_Terminated ->
  ring_inv s' (acc ++ accepted evs).
Proof.
  intros [Hw Hh Hring Hsort Hdev Hfr Hwrite Hinc] Hl Hs Hpc.
  assert (Hw' : window_inv s').
  { apply (window_inv_step BRF LT (Caller ci) s s' evs Hw).
    - unfold clean_launch. destruct ci as [k| |[md|]]; try done.
    - unfold step. destruct (pc (frame_reader_thread_ s)); done. }
  destruct s as [buf pos h t e o f m [l st nx dv fr] c].
  unfold oldest_kept in *.
  unfold caller_step, begin_call, size in *. cbn in *.
  destruct c as [| | |i|k|f' t' b'], ci as [k'| |md]; try done; cbn in Hs;
    try destruct k'; try destruct k; try destruct md; try done; cbn in Hs.
  all: repeat (match type of Hs with
               | context [if ?b then _ else _] => destruct b eqn:?
               | context [match ?l with P_NotStarted => _ | _ => _ end] =>
                   destruct l
               end; cbn in Hs); try done.
  all: inversion Hs; subst; clear Hs; cbn [accepted returned omap app].
  all: rewrite ?app_nil_r.
  all: constructor; unfold oldest_kept; cbn; unfold size; cbn; try done.
  all: intros i0 Hi0 Hi; apply Hring; lia.
Qed.

Lemma ring_inv_launch (s : state) (f : string) (t : Z)
    (m : RGBDVideoMetadata) :
  head_fid_ s = 0 -> tail_fid_ s = 0 -> ring_inv (launch f t m s) [].
Proof.
  destruct s as [buf pos h tl e o f0 m0 p c]. cbn. intros -> ->.
  constructor; unfold oldest_kept; cbn; try done; try lia.
  - constructor; unfold size; cbn; try done; lia.
  - constructor.
Qed.

Lemma accepted_app (e1 e2 : list event) :
  accepted (e1 ++ e2) = accepted e1 ++ accepted e2.
Proof. apply omap_app. Qed.

Lemma returned_app (e1 e2 : list event) :
  returned (e1 ++ e2) = returned e1 ++ returned e2.
Proof. apply omap_app. Qed.

Lemma ring_inv_step (BRF : Z) (LT : bool) (a : action) (s s' : state)
    (evs : list event) (acc : list frameset) :
  ring_inv s acc ->
  is_launch a = false ->
  step BRF LT a s = Some (s', evs) ->
  ring_inv s' (acc ++ accepted evs).
Proof.
  intros Hinv Ha Hs. unfold step in Hs.
  assert (E : pc (frame_reader_thread_ s) <> P_Terminated)
    by (intros E; by rewrite E in Hs).
  destruct a as [r|ci].
  - eapply ring_inv_producer_step; [done|].
    by destruct (pc (frame_reader_thread_ s)).
  - eapply ring_inv_caller_step; try done.
    by destruct (pc (frame_reader_thread_ s)).
Qed.

Lemma ring_inv_run (BRF : Z) (LT : bool) (acts : list action) :
  forall (s s' : state) (evs : list event) (acc : list frameset),
    ring_inv s acc ->
    count_occ bool_dec (is_launch <$> acts) true = 0%nat ->
    run BRF LT acts s = Some (s', evs) ->
    ring_inv s' (acc ++ accepted evs).
Proof.
  induction acts as [|a acts IH]; intros s s' evs acc Hinv Hc Hrun;
    cbn [run] in Hrun.
  - inversion Hrun; subst. cbn. by rewrite !app_nil_r.
  - cbn in Hc. destruct (is_launch a) eqn:Ha; cbn in Hc; [done|].
    destruct (step BRF LT a s) as [[s1 e1]|] eqn:Hs; [|done].
    destruct (run BRF LT acts s1) as [[s2 e2]|] eqn:Hr; [|done].
    inversion Hrun; subst. clear Hrun.
    rewrite accepted_app, !app_assoc.
    eapply IH; [|done|exact Hr]. by eapply ring_inv_step.
Qed.








(** ** Ownership of the thread *)

Lemma run_app (BRF : Z) (LT : bool) (a1 a2 : list action) (s : state) :
  run BRF LT (a1 ++ a2) s =
  match run BRF LT a1 s with
  | Some (s1, e1) =>
      match run BRF LT a2 s1 with
      | Some (s2, e2) => Some (s2, e1 ++ e2)
      | None => None
      end
  | None => None
  end.
Proof.
  revert s. induction a1 as [|a a1 IH]; intros s; cbn [run app].
  - by destruct (run BRF LT a2 s) as [[s2 e2]|].
  - destruct (step BRF LT a s) as [[s1 e1]|]; [|done].
    rewrite IH. destruct (run BRF LT a1 s1) as [[s2 e2]|]; [|done].
    destruct (run BRF LT a2 s2) as [[s3 e3]|]; [|done].
    by rewrite app_assoc.
Qed.

Lemma ownership_RSBagReader (n : nat) : ownership (RSBagReader n).
Proof. constructor; cbn; try done. by left. Qed.

Lemma ownership_launch (f : string) (t : Z) (m : RGBDVideoMetadata)
    (s : state) : ownership (launch f t m s).
Proof. constructor; cbn; try done. intros _. split; [done|by left]. Qed.

Lemma ownership_step (BRF : Z) (LT : bool) (a : action) (s s' : state)
    (evs : list event) :
  ownership s -> step BRF LT a s = Some (s', evs) -> ownership s'.
Proof.
  destruct s as [buf pos h t e o f m [l st nx dv fr] c].
  intros [H1 H2 H3] Hs.
  unfold step, fill_frame_buffer_step, caller_step, begin_call, on_error in Hs.
  cbn in *.
  destruct a as [r|ci].
  - destruct l; try done; cbn in Hs.
    all: destruct e; [by destruct (H3 eq_refl)|].
    all: repeat (match type of Hs with
                 | context [if ?b then _ else _] => destruct b eqn:?
                 | context [match ?r with RsOk => _ | _ => _ end] => destruct r
                 end; cbn in Hs); try done.
    all: inversion Hs; subst; clear Hs.
    all: constructor; cbn; intros; try done; auto.
    all: try match goal with
             | H : _ = true |- _ /\ _ =>
                 destruct (H1 H) as [? ?]; split; [done|assumption]
             | H : _ = false |- _ \/ _ =>
                 destruct (H2 H) as [?|?]; [done|by right]
             end.
  - destruct l; try done;
      destruct c as [| | |i|k|f' t' b'], ci as [k'| |md]; try done; cbn in Hs;
      try destruct k'; try destruct k; try destruct md; cbn in Hs.
    all: destruct e, o; cbn in Hs.
    all: repeat (match type of Hs with
                 | context [if ?b then _ else _] => destruct b eqn:?
                 end; cbn in Hs); try done.
    all: inversion Hs; subst; clear Hs.
    all: try (destruct (H1 eq_refl) as [? [?|[?|[?|[? ?]]]]]; done).
    all: try (destruct (H2 eq_refl) as [?|[? ?]]; done).
    all: try (destruct (H3 eq_refl) as [?|?]; done).
    all: constructor; cbn; intros; try done; eauto 10.
Qed.

Lemma ownership_run (BRF : Z) (LT : bool) (acts : list action) :
  forall (s s' : state) (evs : list event),
    ownership s -> run BRF LT acts s = Some (s', evs) -> ownership s'.
Proof.
  induction acts as [|a acts IH]; intros s s' evs Ho Hrun; cbn [run] in Hrun.
  - by inversion Hrun; subst.
  - destruct (step BRF LT a s) as [[s1 e1]|] eqn:Hs; [|done].
    destruct (run BRF LT acts s1) as [[s2 e2]|] eqn:Hr; [|done].
    inversion Hrun; subst. eapply IH; [|exact Hr].
    eapply ownership_step; eauto.
Qed.

(** A step of the thread function leaves the caller's side alone, never
    leaves the thread object empty and neither raises nor returns to the
    caller. *)
Lemma thread_step_frame (BRF : Z) (LT : bool) (r : rs_reply) (s s' : state)
    (evs : list event) :
  fill_frame_buffer_step BRF LT r s = Some (s', evs) ->
  caller s' = caller s /\ is_opened_ s' = is_opened_ s /\
  pc (frame_reader_thread_ s') <> P_NotStarted /\
  Forall (fun e => e <> EvRaise /\ forall v, e <> EvReturn v) evs.
Proof.
  destruct s as [buf pos h t e o f m [l st nx dv fr] c].
  unfold fill_frame_buffer_step, on_error. cbn. intros Hs.
  destruct l; try done; cbn in Hs.
  all: repeat (match type of Hs with
               | context [if ?b then _ else _] => destruct b eqn:?
               | context [match ?r with RsOk => _ | _ => _ end] => destruct r
               end; cbn in Hs); try done.
  all: inversion Hs; subst; clear Hs; cbn.
  all: repeat split; try done.
  all: repeat (constructor; [by split|]); constructor.
Qed.

Lemma thread_run_frame (BRF : Z) (LT : bool) (rs : list rs_reply) :
  forall (s s' : state) (evs : list event),
    run BRF LT (Prod <$> rs) s = Some (s', evs) ->
    caller s' = caller s /\ is_opened_ s' = is_opened_ s.
Proof.
  induction rs as [|r rs IH]; intros s s' evs Hrun.
  - by inversion Hrun.
  - cbn [fmap list_fmap run] in Hrun.
    change (list_fmap rs_reply action Prod rs) with (Prod <$> rs) in Hrun.
    destruct (step BRF LT (Prod r) s) as [[s1 e1]|] eqn:Hs; [|done].
    destruct (run BRF LT _ s1) as [[s2 e2]|] eqn:Hr; [|done].
    inversion Hrun; subst. clear Hrun.
    assert (Hs' : fill_frame_buffer_step BRF LT r s = Some (s1, e1)).
    { unfold step in Hs. by destruct (pc (frame_reader_thread_ s)). }
    destruct (thread_step_frame _ _ _ _ _ _ Hs') as (Hc1 & Ho1 & _).
    destruct (IH _ _ _ Hr) as [Hc2 Ho2]. split; congruence.
Qed.

(** X4: in every state a schedule leads a constructed reader to, an
    opened reader has a thread object that is not empty and its caller is
    not inside [Open] or [Close]; a closed reader has no thread unless
    [Close] is waiting to join it, so that [Open] reaches the launch of
    line 77 only with an empty thread object; and [is_eof_] is set only
    once the thread function has returned. *)
Theorem thread_ownership (BRF : Z) (LT : bool) (n : nat)
    (acts : list action) (s : state) (evs : list event) :
  run BRF LT acts (RSBagReader n) = Some (s, evs) ->
  (IsOpened s = true ->
   pc (frame_reader_thread_ s) <> P_NotStarted /\
   forall k f t b, caller s <> C_Join k /\ caller s <> C_Start f t b) /\
  (IsOpened s = false ->
   (forall k, caller s <> C_Join k) ->
   pc (frame_reader_thread_ s) = P_NotStarted) /\
  (is_eof_ s = true -> running (pc (frame_reader_thread_ s)) = false).
Proof.
  intros Hrun.
  destruct (ownership_run BRF LT acts _ _ _ (ownership_RSBagReader n) Hrun)
    as [H1 H2 H3].
  split_and!.
  - intros Ho. destruct (H1 Ho) as [Hp Hc]. split; [done|].
    intros k f t b. destruct Hc as [-> | [-> | [-> | [i ->]]]]; done.
  - intros Ho Hk. destruct (H2 Ho) as [|[k Hc]]; [done|]. by destruct (Hk k).
  - intros He. by destruct (H3 He) as [E|E]; rewrite E.
Qed.

Lemma thread_ownership_witness :
  pc (frame_reader_thread_ Sample.paused) <> P_NotStarted /\
  running (pc (frame_reader_thread_ Sample.closed4)) = false.
Proof.
  split.
  - destruct (thread_ownership 2 false 4 (Sample.full4 ++ Sample.next)
                Sample.paused
                [EvLogInfo; EvReturn (RetBool true); EvSeek 0; EvResume;
                 EvAccept (Sample.frame 1); EvAccept (Sample.frame 2);
                 EvAccept (Sample.frame 3); EvAccept (Sample.frame 4);
                 EvPause; EvReturn (RetFrame (to_rgbd (Sample.frame 1)))])
      as [Ho _]; [vm_compute; reflexivity|].
    by destruct (Ho eq_refl).
  - reflexivity.
Defined.

(** ** Reading frames *)











(** Outside such a session the second part of [NextFrame_cases] fails.
    The three frames left in [Sample.paused] are read and [SeekTimestamp]
    restarts the pipeline: the reader is opened with both counters at 4
    and [is_eof_] unset.  A [NextFrame] waits at line 251 until the new
    thread has reset [head_fid_], and then returns frameset 1 of the old
    session out of slot 0, nothing having been accepted. *)
Lemma NextFrame_after_restart_returns_stale_frame :
  exists s1 evs1 s' evs2,
    run 2 false (reads 3 ++ Sample.seek (Some Sample.bag)) Sample.paused
      = Some (s1, evs1) /\
    IsOpened s1 = true /\ caller s1 = C_Idle /\ is_eof_ s1 = false /\
    head_fid_ s1 = 4 /\ tail_fid_ s1 = 4 /\
    run 2 false
      [Caller (Call CallNextFrame); Caller Tick; Prod RsOk; Prod RsOk;
       Caller Tick; Caller Tick; Caller Tick] s1
      = Some (s', evs2) /\
    evs2 = [EvNotify; EvSeek 500000;
            EvReturn (RetFrame (to_rgbd (Sample.frame 1)))] /\
    accepted evs2 = [] /\
    head_fid_ s' = 0 /\ tail_fid_ s' = 5.
Proof.
  exists (Sample.after (reads 3 ++ Sample.seek (Some Sample.bag))
            Sample.paused),
    (Scenario.logged (reads 3 ++ Sample.seek (Some Sample.bag))
       Sample.paused),
    (Sample.after Scenario.read_after_restart Sample.paused),
    [EvNotify; EvSeek 500000;
     EvReturn (RetFrame (to_rgbd (Sample.frame 1)))].
  split_and!; vm_compute; reflexivity.
Qed.

(** ** Close, Open and the destructor *)

(** Once [Close] has cleared [is_opened_] and waits in [join], whatever
    the thread still does, the join returns with the thread object empty
    and nothing raised. *)
Lemma join_after_close (BRF : Z) (LT : bool) (k : after_join)
    (rs : list rs_reply) :
  forall (s s' : state) (evs : list event),
    caller s = C_Join k -> is_opened_ s = false ->
    pc (frame_reader_thread_ s) <> P_NotStarted ->
    run BRF LT ((Prod <$> rs) ++ [Caller Tick]) s = Some (s', evs) ->
    is_opened_ s' = false /\
    pc (frame_reader_thread_ s') = P_NotStarted /\
    caller s' = match k with
                | AJ_Close => C_Idle
                | AJ_Open f t b => C_Start f t b
                end /\
    (EvRaise ∉ evs) /\
    (forall v, EvReturn v ∈ evs -> k = AJ_Close /\ v = RetVoid) /\
    (k = AJ_Close -> last evs = Some (EvReturn RetVoid)).
Proof.
  induction rs as [|r rs IH]; intros s s' evs Hc Ho Hp Hrun.
  - cbn [fmap list_fmap app run] in Hrun.
    unfold step, caller_step in Hrun. rewrite Hc in Hrun.
    destruct s as [buf pos h t e o f m [l st nx dv fr] c]. cbn in *. subst.
    destruct l; try done; destruct k; cbn in Hrun; inversion Hrun; subst;
      cbn; split_and!; try done; try no_event.
    all: intros v Hv; try (by apply elem_of_nil in Hv).
    apply list_elem_of_singleton in Hv. by inversion Hv.
  - cbn [fmap list_fmap app run] in Hrun.
    change (list_fmap rs_reply action Prod rs) with (Prod <$> rs) in Hrun.
    destruct (step BRF LT (Prod r) s) as [[s1 e1]|] eqn:Hs; [|done].
    destruct (run BRF LT _ s1) as [[s2 e2]|] eqn:Hr; [|done].
    inversion Hrun; subst. clear Hrun.
    assert (Hs' : fill_frame_buffer_step BRF LT r s = Some (s1, e1)).
    { unfold step in Hs. by destruct (pc (frame_reader_thread_ s)). }
    destruct (thread_step_frame _ _ _ _ _ _ Hs') as (Hc1 & Ho1 & Hp1 & He1).
    destruct (IH s1 s' e2) as (? & ? & ? & Hraise & Hret & Hlast); try done;
      try congruence.
    rewrite Forall_forall in He1.
    split_and!; try done.
    + rewrite elem_of_app. intros [Hin|Hin]; [|done].
      by destruct (He1 _ Hin).
    + intros v Hv. apply elem_of_app in Hv as [Hin|Hin]; [|by apply Hret].
      destruct (He1 _ Hin) as [_ Hne]. by destruct (Hne v).
    + intros Hk. specialize (Hlast Hk). rewrite last_app, Hlast. done.
Qed.

Lemma Close_opened (BRF : Z) (LT : bool) (s : state) (rs : list rs_reply)
    (s' : state) (evs : list event) :
  caller s = C_Idle ->
  pc (frame_reader_thread_ s) <> P_NotStarted ->
  run BRF LT (Caller (Call CallClose) :: (Prod <$> rs) ++ [Caller Tick]) s
    = Some (s', evs) ->
  IsOpened s' = false /\
  pc (frame_reader_thread_ s') = P_NotStarted /\
  caller s' = C_Idle /\
  (EvRaise ∉ evs) /\
  last evs = Some (EvReturn RetVoid).
Proof.
  intros Hc Hp Hrun.
  cbn [run] in Hrun. unfold step at 1, caller_step in Hrun.
  rewrite Hc in Hrun. cbn [begin_call] in Hrun.
  destruct (pc (frame_reader_thread_ s)) eqn:Hpc; try done.
  all: destruct (run BRF LT _ (close_begin AJ_Close s)) as [[s2 e2]|] eqn:Hr;
    [|done].
  all: inversion Hrun; subst; clear Hrun.
  all: apply join_after_close with (k := AJ_Close) in Hr
         as (? & ? & ? & Hraise & _ & Hlast);
    [|done|done|cbn; by rewrite Hpc].
  all: split_and!; try done.
  all: try (rewrite not_elem_of_cons; split; done).
  all: change (EvNotify :: e2) with ([EvNotify] ++ e2);
    by rewrite last_app, Hlast.
Qed.

(** X5: [Close] on an opened reader, in any state a schedule leads a
    constructed reader to: whatever the thread still does before it
    returns, the join of line 86 does not throw, [Close] returns, and the
    reader is closed with an empty thread object. *)
Theorem Close_joins_the_thread (BRF : Z) (LT : bool) (n : nat)
    (acts0 : list action) (s : state) (evs0 : list event)
    (rs : list rs_reply) (s' : state) (evs : list event) :
  run BRF LT acts0 (RSBagReader n) = Some (s, evs0) ->
  IsOpened s = true -> caller s = C_Idle ->
  run BRF LT (Caller (Call CallClose) :: (Prod <$> rs) ++ [Caller Tick]) s
    = Some (s', evs) ->
  IsOpened s' = false /\
  pc (frame_reader_thread_ s') = P_NotStarted /\
  caller s' = C_Idle /\
  (EvRaise ∉ evs) /\
  last evs = Some (EvReturn RetVoid).
Proof.
  intros Hrun0 Ho Hc Hrun.
  destruct (ownership_run BRF LT acts0 _ _ _ (ownership_RSBagReader n) Hrun0)
    as [H1 _ _].
  destruct (H1 Ho) as [Hp _].
  by apply (Close_opened BRF LT s rs).
Qed.

Lemma Close_joins_the_thread_witness :
  IsOpened (Sample.after Scenario.close_paused Sample.paused) = false /\
  pc (frame_reader_thread_ (Sample.after Scenario.close_paused Sample.paused))
    = P_NotStarted /\
  Scenario.logged Scenario.close_paused Sample.paused
    = [EvNotify; EvReturn RetVoid].
Proof.
  destruct (Close_joins_the_thread 2 false 4 (Sample.full4 ++ Sample.next)
              Sample.paused
              Scenario.history
              [RsOk; RsOk]
              (Sample.after Scenario.close_paused Sample.paused)
              (Scenario.logged Scenario.close_paused Sample.paused))
    as (Ho & Hp & _).
  - vm_compute. reflexivity.
  - reflexivity.
  - reflexivity.
  - vm_compute. reflexivity.
  - split; [exact Ho | split; [exact Hp | reflexivity]].
Defined.

(** X6: [Close] on a closed reader, in any state a schedule leads a
    constructed reader to (never opened, already closed, or after an
    [Open] whose [pipe_->start] threw):
    there is no thread to join, so line 86 throws and [Close] leaves with
    an exception; the counters and the ring stay as they were. *)
Theorem Close_on_closed_reader_raises (BRF : Z) (LT : bool) (n : nat)
    (acts0 : list action) (s : state) (evs0 : list event) :
  run BRF LT acts0 (RSBagReader n) = Some (s, evs0) ->
  IsOpened s = false -> caller s = C_Idle ->
  exists s',
    run BRF LT [Caller (Call CallClose); Caller Tick] s
      = Some (s', [EvNotify; EvRaise]) /\
    IsOpened s' = false /\ caller s' = C_Idle /\
    head_fid_ s' = head_fid_ s /\ tail_fid_ s' = tail_fid_ s /\
    frame_buffer_ s' = frame_buffer_ s.
Proof.
  intros Hrun0 Ho Hc.
  destruct (ownership_run BRF LT acts0 _ _ _ (ownership_RSBagReader n) Hrun0)
    as [_ H2 _].
  destruct (H2 Ho) as [Hp|[k Hk]]; [|congruence].
  destruct s as [buf pos h t e o f m [l st nx dv fr] c]. cbn in *. subst.
  eexists. split; [reflexivity|]. done.
Qed.

Lemma Close_on_closed_reader_raises_witness :
  exists s',
    run 2 false [Caller (Call CallClose); Caller Tick] Sample.closed4
      = Some (s', [EvNotify; EvRaise]) /\
    IsOpened s' = false.
Proof.
  destruct (Close_on_closed_reader_raises 2 false 4 [] Sample.closed4 [])
    as (s' & Hs & Ho & _); [reflexivity..|].
  exists s'. split; [exact Hs | exact Ho].
Defined.

Lemma closing_step (BRF : Z) (LT : bool) (r : rs_reply) (s s' : state)
    (evs : list event) :
  is_opened_ s = false ->
  fill_frame_buffer_step BRF LT r s = Some (s', evs) ->
  is_opened_ s' = false /\
  ((closing_rank (frame_reader_thread_ s')
    < closing_rank (frame_reader_thread_ s))%nat \/
   (closing_rank (frame_reader_thread_ s')
    = closing_rank (frame_reader_thread_ s) /\
    pc (frame_reader_thread_ s) = P_Pull /\
    exists fs, r = RsFrames fs /\
               frame_number fs <= dev_color_fid (frame_reader_thread_ s))) /\
  (EvResume ∉ evs) /\
  (accepted evs = [] \/
   (length (accepted evs) = 1%nat /\
    closing_rank (frame_reader_thread_ s) = 5%nat)).
Proof.
  destruct s as [buf pos h t e o f m [l st nx dv fr] c].
  unfold fill_frame_buffer_step, on_error, need_frames_pred, closing_rank.
  cbn. intros -> Hs.
  destruct l; try done; cbn in Hs.
  all: repeat (match type of Hs with
               | context [Z.leb ?a ?b] => destruct (Z.leb_spec a b)
               | context [if ?b then _ else _] => destruct b eqn:?
               | context [match ?r with RsOk => _ | _ => _ end] => destruct r
               end; cbn in Hs); try done.
  all: inversion Hs; subst; clear Hs; cbn.
  all: split; [done|].
  all: split; [|split; [no_event | auto]].
  all: try (left; lia).
  all: match goal with
       | |- context [?a <=? ?d] => destruct (Z.leb_spec a d)
       end.
  all: try (left; lia).
  all: right; split_and!; try done; eauto.
Qed.

Lemma closing_rank_bound (p : producer) : (closing_rank p <= 9)%nat.
Proof.
  unfold closing_rank. destruct (pc p); try lia. destruct (_ <=? _); lia.
Qed.

Lemma closing_run (BRF : Z) (LT : bool) (rs : list rs_reply) :
  forall (s s' : state) (evs : list event),
    is_opened_ s = false ->
    run BRF LT (Prod <$> rs) s = Some (s', evs) ->
    is_opened_ s' = false /\
    (length rs
     <= closing_rank (frame_reader_thread_ s)
        + length (filter (fun r => delivers r = true) rs))%nat /\
    (EvResume ∉ evs) /\
    (length (accepted evs)
     <= if (5 <=? closing_rank (frame_reader_thread_ s))%nat
        then 1 else 0)%nat.
Proof.
  induction rs as [|r rs IH]; intros s s' evs Ho Hrun.
  - inversion Hrun; subst. cbn. split_and!; try done; try lia.
    all: try apply not_elem_of_nil.
    all: try (destruct (5 <=? _)%nat; lia).
  - cbn [fmap list_fmap run] in Hrun.
    change (list_fmap rs_reply action Prod rs) with (Prod <$> rs) in Hrun.
    destruct (step BRF LT (Prod r) s) as [[s1 e1]|] eqn:Hs; [|done].
    destruct (run BRF LT _ s1) as [[s2 e2]|] eqn:Hr; [|done].
    inversion Hrun; subst. clear Hrun.
    assert (Hs' : fill_frame_buffer_step BRF LT r s = Some (s1, e1)).
    { unfold step in Hs. by destruct (pc (frame_reader_thread_ s)). }
    destruct (closing_step _ _ _ _ _ _ Ho Hs') as (Ho1 & Hrank & Hres & Hacc).
    destruct (IH s1 s' e2 Ho1 Hr) as (Ho2 & Hlen & Hres2 & Hacc2).
    rewrite filter_cons, accepted_app, length_app. cbn [length].
    split_and!; try done.
    + destruct Hrank as [Hlt|(Heq & _ & fs & -> & _)].
      * destruct (decide (delivers r = true)); cbn [length]; lia.
      * rewrite decide_True by done. cbn [length]. lia.
    + rewrite elem_of_app. tauto.
    + destruct (Nat.leb_spec 5 (closing_rank (frame_reader_thread_ s)));
        destruct (Nat.leb_spec 5 (closing_rank (frame_reader_thread_ s1)));
        destruct Hacc as [->|[-> E]];
        destruct Hrank as [Hlt|(Heq & Hpc & _)]; cbn [length]; try lia.
      all: unfold closing_rank in E; rewrite Hpc in E.
      all: destruct (_ <=? _); lia.
Qed.

(** X8: once [is_opened_] is cleared, [fill_frame_buffer] winds down, as
    far as it moves at all: every step it takes lowers [closing_rank]
    unless it pulls a repeated frameset, so it takes at most nine steps
    plus one per frameset delivered; it does not resume the device, and it
    accepts at most one more frameset, the one it had already pulled.
    Whether the thread gets out of the wait of lines 228-232 is not
    decided here: the model has it leave when the predicate holds, the
    code needs the notification of line 85 to reach it. *)
Theorem closed_reader_thread_winds_down (BRF : Z) (LT : bool) (s : state) :
  is_opened_ s = false ->
  (forall r s' evs,
     fill_frame_buffer_step BRF LT r s = Some (s', evs) ->
     is_opened_ s' = false /\
     ((closing_rank (frame_reader_thread_ s')
       < closing_rank (frame_reader_thread_ s))%nat \/
      (closing_rank (frame_reader_thread_ s')
       = closing_rank (frame_reader_thread_ s) /\
       pc (frame_reader_thread_ s) = P_Pull /\
       exists fs, r = RsFrames fs /\
                  frame_number fs
                    <= dev_color_fid (frame_reader_thread_ s)))) /\
  (forall rs s' evs,
     run BRF LT (Prod <$> rs) s = Some (s', evs) ->
     is_opened_ s' = false /\
     (length rs <= 9 + length (filter (fun r => delivers r = true) rs))%nat /\
     (EvResume ∉ evs) /\
     (length (accepted evs) <= 1)%nat).
Proof.
  intros Ho. split.
  - intros r s' evs Hs.
    destruct (closing_step _ _ _ _ _ _ Ho Hs) as (? & ? & _). done.
  - intros rs s' evs Hrun.
    destruct (closing_run BRF LT rs s s' evs Ho Hrun)
      as (Ho' & Hlen & Hres & Hacc).
    pose proof (closing_rank_bound (frame_reader_thread_ s)).
    split_and!; try done; try lia.
    destruct (5 <=? _)%nat; lia.
Qed.

(** [Close] reaches [Sample.pulling]; the pull then delivers frameset 1,
    which the thread still stores before it finds the reader closed. *)
Lemma closed_reader_thread_winds_down_witness :
  accepted
    (Scenario.logged
       (Prod <$> [RsFrames (Sample.frame 1); RsOk; RsOk; RsOk; RsOk; RsOk;
                  RsOk; RsOk])
       (close_begin AJ_Close Sample.pulling)) = [Sample.frame 1] /\
  forall rs s' evs,
    run 2 false (Prod <$> rs) (close_begin AJ_Close Sample.pulling)
      = Some (s', evs) ->
    (length rs <= 9 + length (filter (fun r => delivers r = true) rs))%nat /\
    (length (accepted evs) <= 1)%nat.
Proof.
  split; [vm_compute; reflexivity|].
  destruct (closed_reader_thread_winds_down 2 false
              (close_begin AJ_Close Sample.pulling)) as (_ & Hrun).
  - reflexivity.
  - intros rs s' evs H. destruct (Hrun rs s' evs H) as (_ & Hlen & _ & Hacc).
    split; [exact Hlen | exact Hacc].
Defined.

(** X9: [Open] whose [pipe_->start] throws.  On a closed reader it
    returns false and leaves the reader exactly as it was; on an opened
    reader, in any state a schedule leads a constructed reader to, it
    returns false after having closed the reader and joined its thread:
    the old session is gone. *)
Theorem Open_failure (BRF : Z) (LT : bool) (n : nat)
    (acts0 : list action) (s : state) (evs0 : list event)
    (f : string) (t : Z) :
  run BRF LT acts0 (RSBagReader n) = Some (s, evs0) ->
  caller s = C_Idle ->
  (IsOpened s = false ->
   run BRF LT [Caller (Call (CallOpen f t)); Caller (PipeStart None)] s
     = Some (s, [EvLogWarning; EvReturn (RetBool false)])) /\
  (IsOpened s = true ->
   forall rs s' evs,
     run BRF LT (Caller (Call (CallOpen f t)) :: (Prod <$> rs) ++
                 [Caller Tick; Caller (PipeStart None)]) s = Some (s', evs) ->
     IsOpened s' = false /\
     pc (frame_reader_thread_ s') = P_NotStarted /\
     caller s' = C_Idle /\
     (EvRaise ∉ evs) /\
     last evs = Some (EvReturn (RetBool false))).
Proof.
  intros Hrun0 Hc.
  destruct (ownership_run BRF LT acts0 _ _ _ (ownership_RSBagReader n) Hrun0)
    as [H1 H2 _].
  split.
  - intros Ho. destruct (H2 Ho) as [Hp|[k Hk]]; [|congruence].
    destruct s as [buf pos h tl e o f0 m [l st nx dv fr] c]. cbn in *.
    by subst.
  - intros Ho rs s' evs Hrun. destruct (H1 Ho) as [Hp _].
    replace ((Prod <$> rs) ++ [Caller Tick; Caller (PipeStart None)])
      with (((Prod <$> rs) ++ [Caller Tick]) ++ [Caller (PipeStart None)])
      in Hrun by by rewrite <- app_assoc.
    cbn [run] in Hrun. unfold step at 1, caller_step in Hrun.
    rewrite Hc in Hrun. cbn [begin_call] in Hrun. rewrite Ho in Hrun.
    destruct (pc (frame_reader_thread_ s)) eqn:Hpc; try done.
    all: rewrite run_app in Hrun.
    all: destruct (run BRF LT _ (close_begin _ s)) as [[s2 e2]|] eqn:Hr;
      [|done].
    all: apply join_after_close with (k := AJ_Open f t false) in Hr
           as (Ho2 & Hp2 & Hc2 & Hraise & Hret & _);
      [|done|done|cbn; by rewrite Hpc].
    all: cbn [run] in Hrun; unfold step, caller_step in Hrun;
      rewrite Hp2, Hc2 in Hrun; inversion Hrun; subst; clear Hrun; cbn.
    all: split_and!; try done.
    all: try (rewrite not_elem_of_cons, elem_of_app; split; [done|];
              intros [?|Hin]; [done|]; revert Hin; no_event).
    all: change (EvNotify :: e2 ++ [EvLogWarning; EvReturn (RetBool false)])
        with ((EvNotify :: e2) ++ [EvLogWarning; EvReturn (RetBool false)]);
      by rewrite last_app.
Qed.

Lemma Open_failure_witness :
  run 2 false [Caller (Call (CallOpen "b.bag" 0)); Caller (PipeStart None)]
    Sample.closed4
    = Some (Sample.closed4, [EvLogWarning; EvReturn (RetBool false)]) /\
  IsOpened (Sample.after Scenario.reopen_paused Sample.paused) = false /\
  last (Scenario.logged Scenario.reopen_paused Sample.paused)
    = Some (EvReturn (RetBool false)).
Proof.
  split.
  - destruct (Open_failure 2 false 4 [] Sample.closed4 [] "b.bag" 0)
      as [Hclosed _]; [reflexivity..|].
    apply Hclosed. reflexivity.
  - destruct (Open_failure 2 false 4 (Sample.full4 ++ Sample.next)
                Sample.paused
                Scenario.history
                "b.bag" 0) as [_ Hopened].
    + vm_compute. reflexivity.
    + reflexivity.
    + destruct (Hopened eq_refl [RsOk; RsOk]
                  (Sample.after Scenario.reopen_paused Sample.paused)
                  (Scenario.logged Scenario.reopen_paused Sample.paused))
        as (Ho & _ & _ & _ & Hl).
      * vm_compute. reflexivity.
      * split; [exact Ho | exact Hl].
Defined.

Lemma noexcept_spec (evs : list event) :
  (EvRaise ∉ noexcept evs) /\
  (EvTerminate ∈ noexcept evs <-> EvRaise ∈ evs \/ EvTerminate ∈ evs).
Proof.
  unfold noexcept. split.
  - intros Hin. apply list_elem_of_fmap in Hin as (e & He & _).
    by destruct e.
  - rewrite list_elem_of_fmap. split.
    + intros (e & He & Hin). destruct e; try done; auto.
    + intros [Hin|Hin]; [by exists EvRaise | by exists EvTerminate].
Qed.

(** An exception that has left the thread function has ended the process:
    a schedule that goes on to the join shows none. *)
Lemma join_no_terminate (BRF : Z) (LT : bool) (rs : list rs_reply) :
  forall (s s' : state) (evs : list event),
    caller s <> C_Idle ->
    run BRF LT ((Prod <$> rs) ++ [Caller Tick]) s = Some (s', evs) ->
    EvTerminate ∉ evs.
Proof.
  induction rs as [|r rs IH]; intros s s' evs Hc Hrun.
  - cbn [fmap list_fmap app run] in Hrun.
    destruct (step BRF LT (Caller Tick) s) as [[s1 e1]|] eqn:Hs; [|done].
    inversion Hrun; subst. clear Hrun. rewrite app_nil_r.
    unfold step, caller_step in Hs.
    destruct (pc (frame_reader_thread_ s)), (caller s) as [| | |i|k|f t b];
      try done.
    all: repeat (match type of Hs with
                 | context [if ?b then _ else _] => destruct b
                 end); try destruct k; inversion Hs; subst; no_event.
  - cbn [fmap list_fmap app run] in Hrun.
    change (list_fmap rs_reply action Prod rs) with (Prod <$> rs) in Hrun.
    destruct (step BRF LT (Prod r) s) as [[s1 e1]|] eqn:Hs; [|done].
    destruct (run BRF LT _ s1) as [[s2 e2]|] eqn:Hr; [|done].
    inversion Hrun; subst. clear Hrun.
    assert (Hs' : fill_frame_buffer_step BRF LT r s = Some (s1, e1)).
    { unfold step in Hs. by destruct (pc (frame_reader_thread_ s)). }
    destruct (thread_step_frame _ _ _ _ _ _ Hs') as (Hc1 & _).
    rewrite elem_of_app. intros [Hin|Hin].
    + assert (Hp : pc (frame_reader_thread_ s1) = P_Terminated).
      { clear Hr Hs IH. destruct s as [buf pos h t e o f m [l st nx dv fr] c].
        unfold fill_frame_buffer_step, on_error in Hs'. cbn in Hs'.
        destruct l; try done; cbn in Hs'.
        all: repeat (match type of Hs' with
                     | context [if ?b then _ else _] => destruct b eqn:?
                     | context [match ?r with RsOk => _ | _ => _ end] =>
                         destruct r
                     end; cbn in Hs'); try done.
        all: inversion Hs'; subst; try done.
        all: exfalso; revert Hin; no_event. }
      destruct rs; cbn [fmap list_fmap app run] in Hr; unfold step in Hr;
        by rewrite Hp in Hr.
    + eapply IH; [|exact Hr|done]. congruence.
Qed.

(** X11: the destructor, in any state a schedule leads a constructed
    reader to between two calls (a schedule has [GetMetadataJson] return
    at line 75): it calls [Close] exactly when there is a thread to join,
    so, when the thread returns and [Close] with it, no exception is
    raised inside the destructor, [std::terminate] is not called, and the
    thread object left to [std::thread]'s destructor is empty; on a
    closed reader it does nothing. *)
Theorem destructor_leaves_no_thread (BRF : Z) (LT : bool) (n : nat)
    (acts0 : list action) (s : state) (evs0 : list event)
    (rs : list rs_reply) (s' : state) (evs : list event) :
  run BRF LT acts0 (RSBagReader n) = Some (s, evs0) ->
  caller s = C_Idle ->
  destructor BRF LT rs s = Some (s', evs) ->
  IsOpened s' = false /\
  pc (frame_reader_thread_ s') = P_NotStarted /\
  (EvTerminate ∉ evs) /\ (EvRaise ∉ evs) /\
  (IsOpened s = false -> s' = s /\ evs = []).
Proof.
  intros Hrun0 Hc Hrun.
  destruct (ownership_run BRF LT acts0 _ _ _ (ownership_RSBagReader n) Hrun0)
    as [H1 H2 _].
  unfold destructor in Hrun. destruct (IsOpened s) eqn:Ho.
  - destruct (H1 Ho) as [Hp _].
    destruct (run BRF LT _ s) as [[s1 e1]|] eqn:Hr; [|done].
    inversion Hrun; subst. clear Hrun.
    destruct (Close_opened _ _ _ _ _ _ Hc Hp Hr) as (? & ? & ? & Hraise & ?).
    destruct (noexcept_spec e1) as [Hnr Hterm].
    split_and!; try done.
    rewrite Hterm. intros [Hin|Hin]; [done|].
    cbn [run] in Hr.
    destruct (step BRF LT (Caller (Call CallClose)) s) as [[s2 e2]|] eqn:Hs;
      [|done].
    destruct (run BRF LT _ s2) as [[s3 e3]|] eqn:Hr2; [|done].
    inversion Hr; subst. clear Hr.
    assert (Hs2 : s2 = close_begin AJ_Close s /\ e2 = [EvNotify]).
    { unfold step, caller_step in Hs. rewrite Hc in Hs. cbn in Hs.
      destruct (pc (frame_reader_thread_ s)); by inversion Hs. }
    destruct Hs2 as [-> ->].
    apply elem_of_app in Hin as [Hin|Hin].
    + revert Hin. no_event.
    + eapply join_no_terminate; [|exact Hr2|exact Hin]. done.
  - inversion Hrun; subst. destruct (H2 Ho) as [Hp|[k Hk]]; [|congruence].
    split_and!; try done; apply not_elem_of_nil.
Qed.

Lemma destructor_leaves_no_thread_witness :
  (exists s',
     destructor 2 false [RsOk; RsOk] Sample.paused
       = Some (s', [EvNotify; EvReturn RetVoid]) /\
     pc (frame_reader_thread_ s') = P_NotStarted) /\
  destructor 2 false [] Sample.closed4 = Some (Sample.closed4, []).
Proof.
  split; [|reflexivity].
  exists (Sample.after Scenario.close_paused Sample.paused).
  split; [vm_compute; reflexivity|].
  destruct (destructor_leaves_no_thread 2 false 4
              (Sample.full4 ++ Sample.next) Sample.paused
              Scenario.history
              [RsOk; RsOk]
              (Sample.after Scenario.close_paused Sample.paused)
              [EvNotify; EvReturn RetVoid])
    as (_ & Hp & _).
  - vm_compute. reflexivity.
  - reflexivity.
  - vm_compute. reflexivity.
  - exact Hp.
Defined.

(** ** Reading to the end of the stream *)

Lemma at_eof_step (BRF : Z) (LT : bool) (a : action) (s s' : state)
    (evs : list event) :
  at_eof s -> is_launch a = false ->
  step BRF LT a s = Some (s', evs) ->
  at_eof s' /\ head_fid_ s' = head_fid_ s /\ tail_fid_ s' = tail_fid_ s /\
  accepted evs = [] /\ copying (caller s') = false /\
  (returned evs = [] \/
   exists i, caller s = C_NextCopy i /\ returned evs = [slot s i]) /\
  (copying (caller s) = false -> returned evs = []).
Proof.
  destruct s as [buf pos h t e o f m [l st nx dv fr] c].
  unfold at_eof. cbn. intros (-> & -> & Hl) Ha Hs.
  unfold step, fill_frame_buffer_step, caller_step, begin_call in Hs.
  cbn in Hs.
  destruct a as [r|ci].
  - by destruct l.
  - destruct l; try done;
      destruct c as [| | |i|k|f' t' b'], ci as [k'| |md]; try done; cbn in Hs;
      try destruct k'; try destruct k; try destruct md; try done; cbn in Hs.
    all: rewrite ?Z.eqb_refl in Hs; cbn in Hs.
    all: repeat (match type of Hs with
                 | context [if ?b then _ else _] => destruct b eqn:?
                 end; cbn in Hs); try done.
    all: inversion Hs; subst; clear Hs; cbn; split_and!; try done; auto.
    all: right; by eexists.
Qed.

Lemma at_eof_run (BRF : Z) (LT : bool) (acts : list action) :
  forall (s s' : state) (evs : list event),
    at_eof s ->
    count_occ bool_dec (is_launch <$> acts) true = 0%nat ->
    run BRF LT acts s = Some (s', evs) ->
    at_eof s' /\ head_fid_ s' = head_fid_ s /\ tail_fid_ s' = tail_fid_ s /\
    accepted evs = [] /\
    (returned evs = [] \/
     exists i, caller s = C_NextCopy i /\ returned evs = [slot s i]) /\
    (copying (caller s) = false ->
     returned evs = [] /\ copying (caller s') = false).
Proof.
  induction acts as [|a acts IH]; intros s s' evs Hat Hc Hrun;
    cbn [run] in Hrun.
  - inversion Hrun; subst. split_and!; try done; auto.
  - cbn in Hc. destruct (is_launch a) eqn:Ha; cbn in Hc; [done|].
    destruct (step BRF LT a s) as [[s1 e1]|] eqn:Hs; [|done].
    destruct (run BRF LT acts s1) as [[s2 e2]|] eqn:Hr; [|done].
    inversion Hrun; subst. clear Hrun.
    destruct (at_eof_step _ _ _ _ _ _ Hat Ha Hs)
      as (Hat1 & Hh1 & Ht1 & Hacc1 & Hcp1 & Hret1 & Hidle1).
    destruct (IH s1 s' e2 Hat1 Hc Hr)
      as (? & ? & ? & Hacc2 & _ & Hidle2).
    destruct (Hidle2 Hcp1) as [Hret2 Hcp2].
    rewrite accepted_app, returned_app, Hacc1, Hacc2, Hret2, !app_nil_r.
    split_and!; try done; try congruence.
    intros Hcp. split; [by apply Hidle1 | done].
Qed.

(** X7: once [IsEOF] has answered true, in any state a schedule leads a
    constructed reader to, it keeps answering true until a thread is
    launched again: over every schedule without a launch both counters
    stay, no frameset is accepted and [NextFrame] returns no frame.  The
    one frame still returned is that of a call which had advanced
    [tail_fid_] (making [IsEOF] true) and has its copy of line 261 still
    to do. *)
Theorem IsEOF_is_final (BRF : Z) (LT : bool) (n : nat)
    (acts0 : list action) (s : state) (evs0 : list event)
    (acts : list action) (s' : state) (evs : list event) :
  run BRF LT acts0 (RSBagReader n) = Some (s, evs0) ->
  IsEOF s = true ->
  count_occ bool_dec (is_launch <$> acts) true = 0%nat ->
  run BRF LT acts s = Some (s', evs) ->
  IsEOF s' = true /\
  head_fid_ s' = head_fid_ s /\ tail_fid_ s' = tail_fid_ s /\
  accepted evs = [] /\
  (returned evs = [] \/
   exists i, caller s = C_NextCopy i /\ returned evs = [slot s i]) /\
  (copying (caller s) = false -> returned evs = []).
Proof.
  intros Hrun0 He Hc Hrun.
  destruct (ownership_run BRF LT acts0 _ _ _ (ownership_RSBagReader n) Hrun0)
    as [_ _ H3].
  unfold IsEOF in He. apply andb_prop in He as [He Ht].
  apply Z.eqb_eq in Ht.
  assert (Hat : at_eof s).
  { split_and!; try done. by destruct (H3 He) as [E|E]; rewrite E. }
  destruct (at_eof_run BRF LT acts s s' evs Hat Hc Hrun)
    as ((He' & Ht' & _) & ? & ? & ? & ? & Hidle).
  split_and!; try done.
  - unfold IsEOF. by rewrite He', Ht', Z.eqb_refl.
  - intros Hcp. by destruct (Hidle Hcp).
Qed.

Lemma IsEOF_is_final_witness :
  IsEOF (Sample.after (Scenario.empty_bag ++ read_at_end) Sample.closed4)
    = true /\
  returned (Scenario.logged read_at_end Scenario.at_end) = [].
Proof.
  destruct (IsEOF_is_final 2 false 4 Scenario.empty_bag
              Scenario.at_end
              (Scenario.logged Scenario.empty_bag Sample.closed4)
              read_at_end
              (Sample.after (Scenario.empty_bag ++ read_at_end)
                 Sample.closed4)
              (Scenario.logged read_at_end Scenario.at_end))
    as (He & _ & _ & _ & _ & Hr).
  - vm_compute. reflexivity.
  - vm_compute. reflexivity.
  - vm_compute. reflexivity.
  - vm_compute. reflexivity.
  - split; [exact He | apply Hr; reflexivity].
Defined.

(** [IsEOF] answers true while the last frame is still to be copied:
    the one frameset of the bag is accepted, the stream ends, a
    [NextFrame] advances [tail_fid_] to 1; [IsEOF] is true, and the call
    then returns frameset 1. *)
Lemma IsEOF_before_the_last_copy :
  IsEOF (Sample.after Scenario.last_copy_pending Scenario.launched) = true /\
  caller (Sample.after Scenario.last_copy_pending Scenario.launched)
    = C_NextCopy 0 /\
  returned
    (Scenario.logged [Caller Tick]
       (Sample.after Scenario.last_copy_pending Scenario.launched))
    = [to_rgbd (Sample.frame 1)].
Proof. split_and!; vm_compute; reflexivity. Qed.

Lemma read_at_eof (BRF : Z) (LT : bool) (s : state) :
  window_inv s ->
  pc (frame_reader_thread_ s) = P_Returned ->
  is_eof_ s = true -> is_opened_ s = true -> caller s = C_Idle ->
  tail_fid_ s < head_fid_ s ->
  run BRF LT (reads 1) s
    = Some (set_tail (tail_fid_ s + 1) s,
            [EvReturn (RetFrame (slot s (tail_fid_ s mod size s)))]).
Proof.
  intros [Ht _ _ Hh _ _ _] Hp He Ho Hc Hlt.
  destruct s as [buf pos h t e o f m [l st nx dv fr] c]. cbn in *. subst.
  unfold step, caller_step. cbn.
  destruct (Z.eqb_spec t h); [lia|]. cbn.
  rewrite u64_small by lia. done.
Qed.

Lemma sentinel_at_eof (BRF : Z) (LT : bool) (s : state) :
  pc (frame_reader_thread_ s) = P_Returned ->
  is_eof_ s = true -> is_opened_ s = true -> caller s = C_Idle ->
  tail_fid_ s = head_fid_ s ->
  run BRF LT read_at_end s
    = Some (s, [EvLogInfo; EvReturn RetNoMoreFrames]).
Proof.
  intros Hp He Ho Hc Hlt.
  destruct s as [buf pos h t e o f m [l st nx dv fr] c]. cbn in *. subst.
  unfold step, caller_step. cbn. by rewrite Z.eqb_refl.
Qed.

Lemma window_inv_set_tail (s : state) :
  window_inv s -> pc (frame_reader_thread_ s) = P_Returned ->
  caller s = C_Idle -> tail_fid_ s < head_fid_ s ->
  window_inv (set_tail (tail_fid_ s + 1) s).
Proof.
  destruct s as [buf pos h t e o f m [l st nx dv fr] c].
  intros [? ? ? ? ? ? ?]. cbn in *. intros -> -> Hlt.
  constructor; unfold size in *; cbn in *; try done; lia.
Qed.

(** Once the thread has returned, [k] calls of [NextFrame] hand back the
    [k] slots from [tail_fid_] on as they are. *)
Lemma drain (BRF : Z) (LT : bool) (k : nat) :
  forall s : state,
    window_inv s ->
    pc (frame_reader_thread_ s) = P_Returned ->
    is_eof_ s = true -> is_opened_ s = true -> caller s = C_Idle ->
    Z.to_nat (head_fid_ s - tail_fid_ s) = k ->
    exists evs,
      run BRF LT (reads k) s = Some (set_tail (head_fid_ s) s, evs) /\
      returned evs
        = (fun i => slot s (i mod size s))
            <$> seqZ (tail_fid_ s) (Z.of_nat k) /\
      accepted evs = [].
Proof.
  induction k as [|k IH]; intros s Hw Hp He Ho Hc Hk.
  - exists []. cbn. split_and!; try done.
    destruct Hw as [? ? ? ? ? ? ?].
    replace (head_fid_ s) with (tail_fid_ s) by lia. by destruct s.
  - assert (Hlt : tail_fid_ s < head_fid_ s) by lia.
    pose proof (read_at_eof BRF LT s Hw Hp He Ho Hc Hlt) as Hr1.
    destruct (IH (set_tail (tail_fid_ s + 1) s)) as (e2 & Hr2 & Hret2 & Hacc2).
    + by apply window_inv_set_tail.
    + by destruct s.
    + by destruct s.
    + by destruct s.
    + by destruct s.
    + destruct s; cbn in *; lia.
    + exists ([EvReturn (RetFrame (slot s (tail_fid_ s mod size s)))] ++ e2).
      split_and!.
      * change (reads (S k)) with (reads 1 ++ reads k).
        rewrite run_app, Hr1, Hr2. by destruct s.
      * rewrite returned_app, Hret2. cbn [returned omap app].
        rewrite (seqZ_cons (tail_fid_ s)) by lia. cbn [fmap list_fmap].
        f_equal. destruct s; cbn.
        by replace (Z.pred (Z.of_nat (S k))) with (Z.of_nat k) by lia.
      * by rewrite accepted_app, Hacc2.
Qed.

(** X12: what is in the ring at the end of the stream is delivered.  In a
    session launched with both counters at zero, once the thread has set
    [is_eof_] and [NextFrame] is not being called, [head_fid_ - tail_fid_]
    further calls of [NextFrame] return without waiting, and what they
    return are the images of the framesets accepted from number
    [tail_fid_] on, in that order: the thread is gone and no slot is
    written any more.  Then [IsEOF] is true and every further [NextFrame]
    returns the empty image and leaves the reader as it is. *)
Theorem NextFrame_drains_at_eof (BRF : Z) (LT : bool) (s : state)
    (f : string) (t : Z) (m : RGBDVideoMetadata) (acts : list action)
    (s1 : state) (evs1 : list event) :
  head_fid_ s = 0 -> tail_fid_ s = 0 ->
  count_occ bool_dec (is_launch <$> acts) true = 0%nat ->
  run BRF LT acts (launch f t m s) = Some (s1, evs1) ->
  is_eof_ s1 = true -> IsOpened s1 = true -> caller s1 = C_Idle ->
  exists (s2 : state) (evs2 : list event),
    run BRF LT (reads (Z.to_nat (head_fid_ s1 - tail_fid_ s1))) s1
      = Some (s2, evs2) /\
    returned evs2
      = to_rgbd <$> drop (Z.to_nat (tail_fid_ s1)) (accepted evs1) /\
    accepted evs2 = [] /\
    IsEOF s2 = true /\
    run BRF LT read_at_end s2
      = Some (s2, [EvLogInfo; EvReturn RetNoMoreFrames]).
Proof.
  intros Hh Ht Hcount Hrun He Ho Hc.
  pose proof (ring_inv_run BRF LT acts _ _ _ []
                (ring_inv_launch s f t m Hh Ht) Hcount Hrun) as Hinv.
  cbn [app] in Hinv.
  destruct (ownership_run BRF LT acts _ _ _ (ownership_launch f t m s) Hrun)
    as [H1 _ H3].
  assert (Hp : pc (frame_reader_thread_ s1) = P_Returned).
  { destruct (H3 He) as [Hp|Hp]; [done|]. by destruct (H1 Ho). }
  destruct Hinv as [Hw Hhd Hring _ _ _ _ _].
  destruct (drain BRF LT _ s1 Hw Hp He Ho Hc eq_refl)
    as (evs2 & Hr2 & Hret2 & Hacc2).
  exists (set_tail (head_fid_ s1) s1), evs2.
  split_and!; try done.
  - rewrite Hret2. destruct Hw as [Ht0 Hle Hcap _ _ _ _].
    apply list_eq. intros j.
    rewrite !list_lookup_fmap, lookup_drop.
    destruct (decide (Z.of_nat j < head_fid_ s1 - tail_fid_ s1)) as [Hj|Hj].
    + rewrite lookup_seqZ_lt by lia. cbn. unfold slot.
      rewrite Hring; [|lia|unfold oldest_kept; rewrite Hp; lia].
      replace (Z.to_nat (tail_fid_ s1 + Z.of_nat j))
        with (Z.to_nat (tail_fid_ s1) + j)%nat by lia.
      destruct (accepted evs1 !! _) eqn:E; [done|].
      apply lookup_ge_None in E. lia.
    + rewrite lookup_seqZ_ge by lia. cbn.
      rewrite lookup_ge_None_2; [done|]. lia.
  - unfold IsEOF. destruct s1; cbn in *. by rewrite He, Z.eqb_refl.
  - apply sentinel_at_eof; destruct s1; done.
Qed.

Lemma NextFrame_drains_at_eof_witness :
  exists (s2 : state) (evs2 : list event),
    run 2 false (reads 1) (Sample.after Scenario.short_bag Scenario.launched)
      = Some (s2, evs2) /\
    returned evs2 = [to_rgbd (Sample.frame 2)] /\
    IsEOF s2 = true.
Proof.
  destruct (NextFrame_drains_at_eof 2 false Sample.closed4 "a.bag" 0
              Sample.bag Scenario.short_bag
              (Sample.after Scenario.short_bag Scenario.launched)
              (Scenario.logged Scenario.short_bag Scenario.launched))
    as (s2 & evs2 & Hrun & Hret & _ & He & _).
  - reflexivity.
  - reflexivity.
  - vm_compute. reflexivity.
  - vm_compute. reflexivity.
  - vm_compute. reflexivity.
  - vm_compute. reflexivity.
  - vm_compute. reflexivity.
  - exists s2, evs2. split; [exact Hrun|]. split; [|exact He].
    rewrite Hret. vm_compute. reflexivity.
Defined.

(** ** Timestamps *)

Lemma position_inv_producer_step (BRF : Z) (LT : bool) (r : rs_reply)
    (s s' : state) (evs : list event) (acc : list frameset) :
  ring_inv s acc -> position_inv s acc ->
  fill_frame_buffer_step BRF LT r s = Some (s', evs) ->
  position_inv s' (acc ++ accepted evs).
Proof.
  intros [Hw Hh _ _ _ _ _ _] [Hlen Hring Hinc] Hs.
  destruct Hw as [Ht Hle Hcap Hhd Hst Hsto Hret].
  destruct s as [buf pos h t e o f m [l st nx dv fr] c].
  unfold oldest_kept, position_us in *.
  unfold fill_frame_buffer_step, on_error, has_room, size in *. cbn in *.
  destruct l; try done; cbn in *.
  all: repeat (match type of Hs with
               | context [Z.leb ?a ?b] => destruct (Z.leb_spec a b)
               | context [if ?b then _ else _] => destruct b eqn:?
               | context [match ?r with RsOk => _ | _ => _ end] => destruct r
               end; cbn in Hs); try done.
  all: try (destruct (Hsto eq_refl) as [Hroom Hmax]).
  all: try specialize (Hinc eq_refl).
  all: inversion Hs; subst; clear Hs; cbn [accepted returned omap].
  all: rewrite ?app_nil_r.
  all: constructor; unfold oldest_kept, position_us; cbn; unfold size; cbn;
    rewrite ?length_insert; try done.
  all: try (intros i Hi0 Hi; apply Hring; lia).
  all: try (intros i Hi0 Hi; lia).
  (* lines 193-212 *)
  all: try (intros i Hi0 Hi; rewrite list_lookup_insert_ne;
            [apply Hring; lia | apply ring_index_distinct; lia]).
  all: try (intros _; apply list_lookup_insert_eq;
            match goal with
            | |- (Z.to_nat (?a mod ?n) < _)%nat =>
                pose proof (Z.mod_pos_bound a n); lia
            end).
  (* line 213 *)
  all: intros i Hi0 Hi; rewrite u64_small in Hi by lia.
  all: destruct (decide (i = Z.of_nat (length acc))) as [->|Hne].
  all: try (rewrite Hinc, Nat2Z.id, list_lookup_middle; done).
  all: rewrite lookup_app_l by lia; apply Hring; lia.
Qed.

Lemma position_inv_caller_step (BRF : Z) (LT : bool) (ci : cinput)
    (s s' : state) (evs : list event) (acc : list frameset) :
  position_inv s acc ->
  is_launch (Caller ci) = false ->
  caller_step BRF LT ci s = Some (s', evs) ->
  position_inv s' (acc ++ accepted evs).
Proof.
  intros [Hlen Hring Hinc] Hl Hs.
  destruct s as [buf pos h t e o f m [l st nx dv fr] c].
  unfold oldest_kept in *.
  unfold caller_step, begin_call, size in *. cbn in *.
  destruct c as [| | |i|k|f' t' b'], ci as [k'| |md]; try done; cbn in Hs;
    try destruct k'; try destruct k; try destruct md; try done; cbn in Hs.
  all: repeat (match type of Hs with
               | context [if ?b then _ else _] => destruct b eqn:?
               | context [match ?l with P_NotStarted => _ | _ => _ end] =>
                   destruct l
               end; cbn in Hs); try done.
  all: inversion Hs; subst; clear Hs; cbn [accepted returned omap app].
  all: rewrite ?app_nil_r.
  all: constructor; unfold oldest_kept; cbn; unfold size; cbn; try done.
  all: intros i Hi0 Hi; apply Hring; lia.
Qed.

Lemma position_inv_launch (s : state) (f : string) (t : Z)
    (m : RGBDVideoMetadata) :
  length (frame_position_us_ s) = length (frame_buffer_ s) ->
  head_fid_ s = 0 -> position_inv (launch f t m s) [].
Proof.
  destruct s as [buf pos h tl e o f0 m0 p c]. cbn. intros Hlen ->.
  constructor; cbn; try done. unfold oldest_kept. cbn. intros i Hi0 Hi. lia.
Qed.

Lemma position_inv_run (BRF : Z) (LT : bool) (acts : list action) :
  forall (s s' : state) (evs : list event) (acc : list frameset),
    ring_inv s acc -> position_inv s acc ->
    count_occ bool_dec (is_launch <$> acts) true = 0%nat ->
    run BRF LT acts s = Some (s', evs) ->
    position_inv s' (acc ++ accepted evs).
Proof.
  induction acts as [|a acts IH]; intros s s' evs acc Hinv Hpos Hc Hrun;
    cbn [run] in Hrun.
  - inversion Hrun; subst. cbn. by rewrite !app_nil_r.
  - cbn in Hc. destruct (is_launch a) eqn:Ha; cbn in Hc; [done|].
    destruct (step BRF LT a s) as [[s1 e1]|] eqn:Hs; [|done].
    destruct (run BRF LT acts s1) as [[s2 e2]|] eqn:Hr; [|done].
    inversion Hrun; subst. clear Hrun.
    assert (Hinv1 : ring_inv s1 (acc ++ accepted e1))
      by by eapply ring_inv_step.
    assert (Hpos1 : position_inv s1 (acc ++ accepted e1)).
    { unfold step in Hs. destruct a as [r|ci].
      - eapply position_inv_producer_step; [done|done|].
        by destruct (pc (frame_reader_thread_ s)).
      - eapply position_inv_caller_step; try done.
        by destruct (pc (frame_reader_thread_ s)). }
    rewrite accepted_app, !app_assoc.
    by eapply IH.
Qed.

(** X13: what [GetTimestamp] returns in a session launched with both
    counters at zero, at any point up to the next launch.  Before the
    first frame has been read it is 0.  Afterwards it is the position of
    the frameset [NextFrame] returned last, provided the slot before
    [tail_fid_] has not been written again: fewer than [size - 1] frames
    are unread, or fewer than [size] and the thread is not between lines
    210 and 213.  When the ring is full it is the position of the newest
    frameset in the ring, which [NextFrame] has not returned yet. *)
Theorem GetTimestamp_in_session (BRF : Z) (LT : bool) (s : state)
    (f : string) (t : Z) (m : RGBDVideoMetadata) (acts : list action)
    (s' : state) (evs : list event) :
  head_fid_ s = 0 -> tail_fid_ s = 0 ->
  length (frame_position_us_ s) = length (frame_buffer_ s) ->
  count_occ bool_dec (is_launch <$> acts) true = 0%nat ->
  run BRF LT acts (launch f t m s) = Some (s', evs) ->
  IsOpened s' = true ->
  (tail_fid_ s' = 0 -> GetTimestamp s' = 0) /\
  (0 < tail_fid_ s' ->
   head_fid_ s' - tail_fid_ s' < size s' - 1 \/
   (head_fid_ s' - tail_fid_ s' < size s' /\
    pc (frame_reader_thread_ s') <> P_IncHead) ->
   Some (GetTimestamp s')
     = position_us <$> accepted evs !! Z.to_nat (tail_fid_ s' - 1)) /\
  (0 < tail_fid_ s' -> 0 < size s' ->
   head_fid_ s' - tail_fid_ s' = size s' ->
   Some (GetTimestamp s')
     = position_us <$> accepted evs !! Z.to_nat (head_fid_ s' - 1)).
Proof.
  intros Hh Ht Hlen Hcount Hrun Ho.
  pose proof (ring_inv_run BRF LT acts _ _ _ []
                (ring_inv_launch s f t m Hh Ht) Hcount Hrun) as Hinv.
  pose proof (position_inv_run BRF LT acts _ _ _ []
                (ring_inv_launch s f t m Hh Ht)
                (position_inv_launch s f t m Hlen Hh) Hcount Hrun) as Hpos.
  cbn [app] in Hinv, Hpos.
  destruct Hinv as [[Ht0 Hle Hcap _ _ Hsto _] Hhd _ _ _ _ _ _].
  destruct Hpos as [_ Hring _].
  unfold GetTimestamp, slot_position. rewrite Ho. cbn [negb].
  assert (Hlook : forall i : Z, 0 <= i -> oldest_kept s' <= i < head_fid_ s' ->
            Some (default 0 (frame_position_us_ s' !! Z.to_nat (i mod size s')))
              = position_us <$> accepted evs !! Z.to_nat i).
  { intros i Hi0 Hi. rewrite (Hring i Hi0 Hi).
    destruct (accepted evs !! Z.to_nat i) eqn:E; [done|].
    apply lookup_ge_None in E. lia. }
  split_and!.
  - intros ->. done.
  - intros Hpos Hroom. destruct (Z.eqb_spec (tail_fid_ s') 0); [lia|].
    apply Hlook; [lia|]. unfold oldest_kept.
    destruct Hroom as [Hroom|[Hroom Hpc]];
      destruct (pc (frame_reader_thread_ s')); try done; lia.
  - intros Hpos Hsize Hfull. destruct (Z.eqb_spec (tail_fid_ s') 0); [lia|].
    replace ((tail_fid_ s' - 1) mod size s')
      with ((head_fid_ s' - 1) mod size s').
    + apply Hlook; [lia|]. unfold oldest_kept.
      destruct (pc (frame_reader_thread_ s')) eqn:Hpc; try lia.
      all: destruct Hsto as [Hroom _]; [done|lia].
    + replace (head_fid_ s' - 1) with (tail_fid_ s' - 1 + 1 * size s') by lia.
      apply Z.mod_add. lia.
Qed.

Lemma GetTimestamp_in_session_witness :
  returned (Scenario.logged Scenario.refilled Scenario.launched)
    = to_rgbd <$> [Sample.frame 1; Sample.frame 2; Sample.frame 3] /\
  GetTimestamp
    (Sample.after Scenario.refilled Scenario.launched)
    = position_us (Sample.frame 7).
Proof.
  split; [vm_compute; reflexivity|].
  destruct (GetTimestamp_in_session 2 false Sample.closed4 "a.bag" 0
              Sample.bag Scenario.refilled
              (Sample.after Scenario.refilled
                 Scenario.launched)
              (Scenario.logged Scenario.refilled Scenario.launched))
    as (_ & _ & Hfull).
  - reflexivity.
  - reflexivity.
  - reflexivity.
  - vm_compute. reflexivity.
  - vm_compute. reflexivity.
  - vm_compute. reflexivity.
  - assert (E : Some (GetTimestamp
                        (Sample.after Scenario.refilled
                           Scenario.launched))
                = Some (position_us (Sample.frame 7))).
    { rewrite Hfull; vm_compute; reflexivity. }
    congruence.
Defined.

(** ** Metadata and the formats of a bag *)

Ltac meta_unfold :=
  unfold GetMetadataJson, mbind, meta_bind, mret, meta_ret, at_, assign,
    when, LogError.

(** What [GetMetadataJson] does on an opened reader when every call into
    librealsense returns, by the outcome of its checks. *)
Lemma GetMetadataJson_cases (LT : bool) (p : pipeline_profile) (fm : formats) :
  match GetMetadataJson LT true (Answered p) fm with
  | (fm', evs, inl value) =>
      named (format (rs_depth p)) = true /\
      named (format (rs_color p)) = true /\
      find_format format_dtype (format (rs_depth p)) = Some (dt_depth_ fm') /\
      find_format format_dtype (format (rs_color p)) = Some (dt_color_ fm') /\
      find_format format_channels (format (rs_color p))
        = Some (channels_color_ fm') /\
      (evs = [] <->
       depth_supported (format (rs_depth p)) = true /\
       color_supported (format (rs_color p)) = true /\
       fps (rs_color p) = fps (rs_depth p)) /\
      (evs <> [] -> LT = false)
  | (fm', evs, inr std_out_of_range) =>
      named (format (rs_depth p)) = false \/
      named (format (rs_color p)) = false
  | (fm', evs, inr LogError_exception) =>
      LT = true /\
      ~ (depth_supported (format (rs_depth p)) = true /\
         color_supported (format (rs_color p)) = true /\
         fps (rs_color p) = fps (rs_depth p))
  | (fm', evs, inr rs2_error) => False
  end.
Proof.
  destruct p as [[fd fpsd] [fc fpsc] dn sn du]. meta_unfold. cbn.
  destruct (Z.eqb_spec fpsc fpsd), fd, fc, LT; cbn.
  all: split_and?; try done; auto.
  all: try (split; [done|]; intros (? & ? & ?); done).
  all: try (split; [intros ?|intros (? & ? & ?)]; done).
  all: try (intros (? & ? & ?); done).
Qed.

(** [GetMetadataJson] returns a value only if every call into librealsense
    returned. *)
Lemma GetMetadataJson_returns (LT : bool) (a : rs2_answers) (fm fm' : formats)
    (evs : list event) (value : Json_Value) :
  GetMetadataJson LT true a fm = (fm', evs, inl value) ->
  exists p, a = Answered p.
Proof.
  destruct a as [p|p|]; [by exists p| |by meta_unfold].
  destruct p as [[fd fpsd] [fc fpsc] dn sn du]. meta_unfold. cbn.
  destruct (Z.eqb_spec fpsc fpsd), fd, fc, LT; cbn; done.
Qed.

(** X14: the bags [GetMetadataJson] lets pass.  On an opened reader, with
    librealsense answering every call, it returns without logging an error
    exactly when the depth stream is Z16 or Y16, the colour stream is one
    of YUYV, RGB8, BGR8, RGBA8, BGRA8 and Y8, and both streams have the
    same frame rate, whatever [LogError] does; it has then set [dt_depth_]
    to UInt16, [dt_color_] to UInt8 and [channels_color_] to the entry of
    the colour format.  It returns a value only if librealsense answered
    every call. *)
Theorem GetMetadataJson_passes_iff (LT : bool) (p : pipeline_profile)
    (fm : formats) :
  ((exists fm' value,
      GetMetadataJson LT true (Answered p) fm = (fm', [], inl value)) <->
   depth_supported (format (rs_depth p)) = true /\
   color_supported (format (rs_color p)) = true /\
   fps (rs_color p) = fps (rs_depth p)) /\
  (forall fm' value,
     GetMetadataJson LT true (Answered p) fm = (fm', [], inl value) ->
     dt_depth_ fm' = UInt16 /\ dt_color_ fm' = UInt8 /\
     find_format format_channels (format (rs_color p))
       = Some (channels_color_ fm') /\
     1 <= channels_color_ fm' <= 4) /\
  (forall a fm' evs value,
     GetMetadataJson LT true a fm = (fm', evs, inl value) ->
     exists p', a = Answered p').
Proof.
  split_and!; [| |intros a fm' evs value; apply GetMetadataJson_returns].
  all: pose proof (GetMetadataJson_cases LT p fm) as H.
  all: destruct (GetMetadataJson LT true (Answered p) fm)
         as [[fm1 e1] [v|[| |]]]; try done.
  - destruct H as (_ & _ & Hd & Hc & Hch & Hiff & _). split.
    + intros (fm' & value & E). inversion E; subst. by apply Hiff.
    + intros Hs. apply Hiff in Hs as ->. by exists fm1, v.
  - split; [intros (? & ? & E); inversion E|].
    intros (Hds & Hcs & _).
    destruct H as [H|H], (format (rs_depth p)), (format (rs_color p));
      done.
  - split; [intros (? & ? & E); inversion E|].
    intros Hs. by destruct H as [_ H].
  - destruct H as (_ & _ & Hd & Hc & Hch & Hiff & _).
    intros fm' value E. inversion E; subst.
    destruct Hiff as [Hiff _]. destruct (Hiff eq_refl) as (Hds & Hcs & _).
    destruct (format (rs_depth p)), (format (rs_color p)); try done;
      cbn in Hd, Hc, Hch; inversion Hd; inversion Hc; inversion Hch;
      split_and!; done.
Qed.

Ltac break_hyps :=
  repeat match goal with
         | H : _ /\ _ |- _ => destruct H
         | H : exists _, _ |- _ => destruct H
         | H : Some _ = Some _ |- _ => injection H as <-
         | H : NoDuration _ = NoDuration _ |- _ => injection H as <-
         | H : _ \/ _ |- _ => destruct H
         end;
  cbn in *; try congruence.

Ltac thrown_solve :=
  split;
  [ intros (? & ? & E); try discriminate E; clear E;
    first
      [ by left
      | eexists; split; [reflexivity|]; cbn; intuition congruence
      | split; [done|]; eexists; split; [reflexivity|]; cbn;
        intuition congruence
      | right; eexists; split; [reflexivity|]; cbn; intuition congruence ]
  | first [ by eexists _, _ | intros H; exfalso; break_hyps ] ].

(** X15: when [GetMetadataJson] throws on an opened reader, and what.  A
    call into librealsense that fails throws [rs2::error]: at lines
    120-135 before anything is assigned or checked, at line 156 after the
    last check.  The three tables have the same eight keys, so [at] throws
    [std::out_of_range] exactly for a depth or colour format outside them
    that is reached; and [LogError], if it throws, does so at the first
    check of lines 138-153 that fails. *)
Theorem GetMetadataJson_throws_iff (LT : bool) (a : rs2_answers)
    (fm : formats) :
  (throws LT a fm std_out_of_range <->
   exists p, profile_of a = Some p /\
     (named (format (rs_depth p)) = false \/
      (named (format (rs_color p)) = false /\
       (LT = false \/ depth_supported (format (rs_depth p)) = true)))) /\
  (throws LT a fm LogError_exception <->
   LT = true /\
   exists p, profile_of a = Some p /\
     named (format (rs_depth p)) = true /\
     (depth_supported (format (rs_depth p)) = false \/
      (named (format (rs_color p)) = true /\
       (color_supported (format (rs_color p)) = false \/
        fps (rs_color p) <> fps (rs_depth p))))) /\
  (throws LT a fm rs2_error <->
   a = NoProfile \/
   exists p, a = NoDuration p /\
     named (format (rs_depth p)) = true /\
     named (format (rs_color p)) = true /\
     (LT = false \/
      (depth_supported (format (rs_depth p)) = true /\
       color_supported (format (rs_color p)) = true /\
       fps (rs_color p) = fps (rs_depth p)))) /\
  GetMetadataJson LT true NoProfile fm = (fm, [], inr rs2_error).
Proof.
  unfold throws.
  destruct a as [p|p|]; [| |meta_unfold; cbn; split_and!; thrown_solve || done].
  all: destruct p as [[fd fpsd] [fc fpsc] dn sn du]; meta_unfold; cbn.
  all: destruct (Z.eqb_spec fpsc fpsd), fd, fc, LT; cbn.
  all: split_and!; try done; thrown_solve.
Qed.

(** When [GetMetadataJson] returns, [Open_started] is the step
    [PipeStart (Some md)] of a schedule. *)
Lemma Open_started_launches (BRF : Z) (LT : bool)
    (convert : Json_Value -> RGBDVideoMetadata) (f : string) (t : Z)
    (b : bool) (a : rs2_answers) (fm fm' : formats) (value : Json_Value)
    (s : state) :
  caller s = C_Start f t b ->
  GetMetadataJson LT true a fm = (fm', [], inl value) ->
  caller_step BRF LT (PipeStart (Some (convert value))) s
    = Some ((Open_started LT convert f t a fm s).1.1,
            (Open_started LT convert f t a fm s).2).
Proof.
  intros Hc Hm. unfold Open_started, caller_step. cbn [IsOpened is_opened_].
  by rewrite Hc, Hm.
Qed.

(** X16: [Open] whose [GetMetadataJson] throws (line 75), whichever of
    its exceptions it is, in any state a schedule leads a constructed
    reader to.  The exception leaves [Open] with [is_opened_] already set
    and no thread launched.  On the reader it leaves behind, [Close]
    raises [std::system_error] at its join; the destructor, which calls
    [Close] and is [noexcept], ends in [std::terminate]; and a [NextFrame]
    that finds the counters equal never returns. *)
Theorem Open_metadata_failure (BRF : Z) (LT : bool)
    (convert : Json_Value -> RGBDVideoMetadata) (n : nat)
    (acts0 : list action) (s : state) (evs0 : list event)
    (f : string) (t : Z) (b : bool) (a : rs2_answers)
    (fm fm' : formats) (evs : list event) (ex : exception) :
  run BRF LT acts0 (RSBagReader n) = Some (s, evs0) ->
  caller s = C_Start f t b ->
  GetMetadataJson LT true a fm = (fm', evs, inr ex) ->
  exists s1,
    Open_started LT convert f t a fm s
      = (s1, fm', EvLogInfo :: evs ++ [EvRaise]) /\
    IsOpened s1 = true /\
    pc (frame_reader_thread_ s1) = P_NotStarted /\
    caller s1 = C_Idle /\
    head_fid_ s1 = head_fid_ s /\ tail_fid_ s1 = tail_fid_ s /\
    run BRF LT [Caller (Call CallClose); Caller Tick] s1
      = Some (set_caller C_Idle (close_begin AJ_Close s1),
              [EvNotify; EvRaise]) /\
    destructor BRF LT [] s1
      = Some (set_caller C_Idle (close_begin AJ_Close s1),
              [EvNotify; EvTerminate]) /\
    (tail_fid_ s = head_fid_ s ->
     forall acts s' evs',
       run BRF LT (Caller (Call CallNextFrame) :: acts) s1 = Some (s', evs') ->
       forall r, EvReturn r ∉ evs').
Proof.
  intros Hrun0 Hc Hm.
  destruct (ownership_run BRF LT acts0 _ _ _ (ownership_RSBagReader n) Hrun0)
    as [H1 H2 _].
  assert (Ho : is_opened_ s = false).
  { destruct (is_opened_ s); [|done].
    destruct (H1 eq_refl) as [_ [E | [E | [E | [i E]]]]]; congruence. }
  assert (Hp : pc (frame_reader_thread_ s) = P_NotStarted).
  { destruct (H2 Ho) as [|[k Hk]]; [done|congruence]. }
  eexists. split.
  { unfold Open_started. cbn [IsOpened is_opened_]. by rewrite Hm. }
  destruct s as [buf pos h tl e o f0 m [l st nx dv fr] c]. cbn in *. subst.
  split_and!; try done.
  intros -> acts s' evs' Hrun.
  cbn -[run] in Hrun.
  cbn [run step frame_reader_thread_ pc caller_step caller
       begin_call IsOpened is_opened_ negb andb is_eof_] in Hrun.
  destruct (run BRF LT acts _) as [[s2 e2]|] eqn:Hrest; [|done].
  apply NextFrame_spins in Hrest as [-> ->]; [|done|by left|done|done].
  inversion Hrun; subst. intros r Hr. cbn in Hr.
  destruct (below_refill _ _); cbn in Hr;
    repeat (apply elem_of_cons in Hr as [Hr|Hr]; [done|]);
    by apply elem_of_nil in Hr.
Qed.

Lemma Open_metadata_failure_witness :
  exists s1,
    Open_started false (fun _ => Sample.bag) "a.bag" 0
      (Answered Scenario.odd_profile) (mkFormats UInt8 UInt8 0)
      (Sample.after [Caller (Call (CallOpen "a.bag" 0))] Sample.closed4)
      = (s1, mkFormats UInt8 UInt8 0, [EvLogInfo; EvRaise]) /\
    IsOpened s1 = true /\
    destructor 2 false [] s1
      = Some (set_caller C_Idle (close_begin AJ_Close s1),
              [EvNotify; EvTerminate]).
Proof.
  destruct (Open_metadata_failure 2 false (fun _ => Sample.bag) 4
              [Caller (Call (CallOpen "a.bag" 0))]
              (Sample.after [Caller (Call (CallOpen "a.bag" 0))]
                 Sample.closed4)
              [] "a.bag" 0 false (Answered Scenario.odd_profile)
              (mkFormats UInt8 UInt8 0)
              (mkFormats UInt8 UInt8 0) [] std_out_of_range)
    as (s1 & Hs & Ho & _ & _ & _ & _ & _ & Hd & _).
  - vm_compute. reflexivity.
  - reflexivity.
  - reflexivity.
  - exists s1. split; [exact Hs|]. split; [exact Ho | exact Hd].
Defined.

(** ** Restarting at a timestamp *)

(** The conversion of line 170 keeps a start time below [2 ^ 63]. *)
Lemma to_microseconds_small (t : Z) :
  0 <= t < 2 ^ 63 -> to_microseconds t = t.
Proof.
  intros Ht. unfold to_microseconds.
  rewrite Z.mod_small by lia. lia.
Qed.

Lemma seek_step (BRF : Z) (LT : bool) (a : action) (s s' : state)
    (evs : list event) :
  is_launch a = false ->
  step BRF LT a s = Some (s', evs) ->
  start_time_us (frame_reader_thread_ s')
    = start_time_us (frame_reader_thread_ s) /\
  forall t', EvSeek t' ∈ evs ->
             t' = to_microseconds (start_time_us (frame_reader_thread_ s)).
Proof.
  destruct s as [buf pos h t e o f m [l st nx dv fr] c].
  unfold step, fill_frame_buffer_step, on_error, caller_step, begin_call.
  cbn. intros Ha Hs.
  destruct a as [r|ci].
  - destruct l; try done; cbn in Hs.
    all: repeat (match type of Hs with
                 | context [if ?b then _ else _] => destruct b eqn:?
                 | context [match ?r with RsOk => _ | _ => _ end] =>
                     destruct r
                 end; cbn in Hs); try done.
    all: inversion Hs; subst; clear Hs; cbn; split; [done|].
    all: intros t' Hin;
      repeat (apply elem_of_cons in Hin as [Hin|Hin];
              [by inversion Hin|]);
      by apply elem_of_nil in Hin.
  - destruct l; try done;
      destruct c as [| | |i|k|f' t0 b'], ci as [k'| |md]; try done; cbn in Hs;
      try destruct k'; try destruct k; try destruct md; try done; cbn in Hs.
    all: repeat (match type of Hs with
                 | context [if ?b then _ else _] => destruct b eqn:?
                 end; cbn in Hs); try done.
    all: inversion Hs; subst; clear Hs; cbn; split; [done|].
    all: intros t' Hin;
      repeat (apply elem_of_cons in Hin as [Hin|Hin];
              [by inversion Hin|]);
      by apply elem_of_nil in Hin.
Qed.

Lemma seek_run (BRF : Z) (LT : bool) (acts : list action) :
  forall (s s' : state) (evs : list event),
    count_occ bool_dec (is_launch <$> acts) true = 0%nat ->
    run BRF LT acts s = Some (s', evs) ->
    forall t', EvSeek t' ∈ evs ->
               t' = to_microseconds (start_time_us (frame_reader_thread_ s)).
Proof.
  induction acts as [|a acts IH]; intros s s' evs Hc Hrun t' Hin;
    cbn [run] in Hrun.
  - inversion Hrun; subst. by apply elem_of_nil in Hin.
  - cbn in Hc. destruct (is_launch a) eqn:Ha; cbn in Hc; [done|].
    destruct (step BRF LT a s) as [[s1 e1]|] eqn:Hs; [|done].
    destruct (run BRF LT acts s1) as [[s2 e2]|] eqn:Hr; [|done].
    inversion Hrun; subst. clear Hrun.
    destruct (seek_step _ _ _ _ _ _ Ha Hs) as [Hst Hev].
    apply elem_of_app in Hin as [Hin|Hin]; [by apply Hev|].
    rewrite <- Hst. by eapply IH.
Qed.

(** X17: a [SeekTimestamp] that restarts the pipeline, on an opened reader
    in any state a schedule leads a constructed reader to, with a
    timestamp before the end of the stream.  The old thread is joined,
    the call returns true without raising, and the reader is opened again
    on the file it had, not at end of stream, with a fresh thread; up to
    the next launch, every seek of the device is to the timestamp asked
    for as line 170 converts it to a signed count of microseconds, which
    is the timestamp itself when that is below [2 ^ 63]. *)
Theorem SeekTimestamp_restarts (BRF : Z) (LT : bool) (n : nat)
    (acts0 : list action) (s : state) (evs0 : list event) (t : Z)
    (rs : list rs_reply) (md : RGBDVideoMetadata) (s1 : state)
    (evs1 : list event) :
  run BRF LT acts0 (RSBagReader n) = Some (s, evs0) ->
  IsOpened s = true -> caller s = C_Idle ->
  t < stream_length_usec_ (metadata_ s) ->
  run BRF LT (Caller (Call (CallSeekTimestamp t)) :: (Prod <$> rs) ++
              [Caller Tick; Caller (PipeStart (Some md))]) s
    = Some (s1, evs1) ->
  IsOpened s1 = true /\ is_eof_ s1 = false /\
  filename_ s1 = filename_ s /\ metadata_ s1 = md /\
  caller s1 = C_Idle /\
  frame_reader_thread_ s1 = mkProducer P_Seek t 0 0 frameset_default /\
  last evs1 = Some (EvReturn (RetBool true)) /\
  (EvRaise ∉ evs1) /\
  (forall acts s' evs,
     count_occ bool_dec (is_launch <$> acts) true = 0%nat ->
     run BRF LT acts s1 = Some (s', evs) ->
     forall t', EvSeek t' ∈ evs ->
                t' = to_microseconds t /\ (0 <= t < 2 ^ 63 -> t' = t)).
Proof.
  intros Hrun0 Ho Hc Ht Hrun.
  destruct (ownership_run BRF LT acts0 _ _ _ (ownership_RSBagReader n) Hrun0)
    as [H1 _ _].
  destruct (H1 Ho) as [Hp _].
  replace ((Prod <$> rs) ++ [Caller Tick; Caller (PipeStart (Some md))])
    with (((Prod <$> rs) ++ [Caller Tick]) ++ [Caller (PipeStart (Some md))])
    in Hrun by by rewrite <- app_assoc.
  cbn [run] in Hrun. unfold step at 1, caller_step in Hrun.
  rewrite Hc in Hrun. cbn [begin_call] in Hrun. rewrite Ho in Hrun.
  cbn [negb] in Hrun.
  destruct (Z.leb_spec (stream_length_usec_ (metadata_ s)) t); [lia|].
  destruct (pc (frame_reader_thread_ s)) eqn:Hpc; try done.
  all: rewrite run_app in Hrun.
  all: destruct (run BRF LT _ (close_begin _ s)) as [[s2 e2]|] eqn:Hr;
    [|done].
  all: apply join_after_close with (k := AJ_Open (filename_ s) t true) in Hr
         as (Ho2 & Hp2 & Hc2 & Hraise & Hret & _);
    [|done|done|cbn; by rewrite Hpc].
  all: cbn [run] in Hrun; unfold step, caller_step in Hrun;
    rewrite Hp2, Hc2 in Hrun; inversion Hrun; subst; clear Hrun; cbn.
  all: split_and!; try done.
  all: try (change (EvNotify :: e2 ++ [EvLogInfo; EvReturn (RetBool true)])
              with ((EvNotify :: e2) ++ [EvLogInfo; EvReturn (RetBool true)]);
            by rewrite last_app).
  all: try (rewrite not_elem_of_cons, elem_of_app; split; [done|];
            intros [?|Hin]; [done|]; revert Hin; no_event).
  all: intros acts s' evs Hcount Hrun' t' Hin;
    pose proof (seek_run _ _ _ _ _ _ Hcount Hrun' t' Hin) as Hseek;
    cbn in Hseek; split; [done|];
    intros Hsmall; by rewrite Hseek, to_microseconds_small.
Qed.

Lemma SeekTimestamp_restarts_witness :
  IsOpened Sample.restarted = true /\
  filename_ Sample.restarted = "a.bag" /\
  frame_reader_thread_ Sample.restarted
    = mkProducer P_Seek 500000 0 0 frameset_default.
Proof.
  destruct (SeekTimestamp_restarts 2 false 4 (Sample.full4 ++ Sample.next)
              Sample.paused
              Scenario.history
              500000 [RsOk; RsOk] Sample.bag Sample.restarted
              (Scenario.logged (Sample.seek (Some Sample.bag)) Sample.paused))
    as (Ho & _ & Hf & _ & _ & Hth & _).
  - vm_compute. reflexivity.
  - reflexivity.
  - reflexivity.
  - vm_compute. reflexivity.
  - vm_compute. reflexivity.
  - split; [exact Ho|]. split; [|exact Hth].
    rewrite Hf. vm_compute. reflexivity.
Defined.
